(** * Resource topology: rule-driven sub-resource and peer-resource resolution

    A shallow embedding of [util/topology/topology.go].  The Go code walks a
    rendered CUE document, keeps a group/kind-to-rule index in the receiver,
    and queries the cluster through a client.  Here

    - CUE values are a small tree type with the accessors the code calls
      ([LookupPath], [Exists], [List], [Fields], [Decode], ...);
    - the receiver [*resourceTopology] and the sequence of client calls are
      threaded through a state monad whose outcomes are a value, a Go error,
      a run-time panic, or fuel exhaustion (the recursion of
      [getSubResources] is bounded only by the rule author);
    - the template compiler and the cluster client are the fields of an
      environment record. *)

From stdpp Require Import base option list strings gmap.

(** ** Identities and cluster objects *)

Module k8s.
(** Modelled from the spec: the declaration of [k8s.Resource] is in a
    sibling package that is not part of the sources at hand.  The spec
    gives it as the identity tuple group, kind, name, namespace, compared
    structurally; the code reads the fields [Group], [Resource], [Name]
    and [Namespace].  The field [Resource] is spelled [Resource_] because
    a record and its projection cannot share a name. *)
Record Resource : Type := mk {
  Group : string;
  Resource_ : string;
  Name : string;
  Namespace : string
}.

#[global] Instance Resource_eq_dec : EqDecision Resource.
Proof. solve_decision. Defined.
End k8s.

Module metav1.
Record OwnerReference : Type := mkOwner {
  APIVersion : string;
  Kind : string;
  Name : string;
  UID : string
}.
End metav1.

Module corev1.
Record ObjectReference : Type := mkRef {
  Kind : string;
  Namespace : string;
  Name : string
}.
End corev1.

Module discoveryv1.
(** [TargetRef] is a pointer in Go: [None] is the nil pointer. *)
Record Endpoint : Type := mkEndpoint {
  TargetRef : option corev1.ObjectReference
}.

Record EndpointSlice : Type := mkSlice {
  SliceName : string;
  OwnerReferences : list metav1.OwnerReference;
  Endpoints : list Endpoint
}.
End discoveryv1.

Module schema.
Record GroupVersionKind : Type := mkGVK {
  Group : string;
  Version : string;
  Kind : string
}.
End schema.

Module unstructured.
(** The parts of an unstructured object that the code reads.  A Go map is
    nil or a map: [GetAnnotations] gives nil when the object has no
    annotations field. *)
Record Unstructured : Type := mkUn {
  GetName : string;
  GetNamespace : string;
  GetAnnotations : option (gmap string string);
  GetOwnerReferences : list metav1.OwnerReference
}.
End unstructured.

Module client.
Inductive ListOption : Type :=
| InNamespace (ns : string)
| MatchingLabels (labels : gmap string string).
End client.

(** ** Errors, panics and results *)

Inductive error : Type :=
| StoreError (msg : string)
| RenderError (msg : string)
| ValueError (msg : string)
| Wrap (e : error) (msg : string)
| RulesNotFound
| RuleNotFound (group resource : string)
| SelectorMissing
| UnsupportedBuiltin (typ : string)
| UnsupportedSelector (key : string).

Inductive panic : Type :=
| NilDereference
| IndexOutOfRange (index len : nat).

Inductive result (A : Type) : Type :=
| Success (a : A)
| Failure (e : error).
Arguments Success {A} a.
Arguments Failure {A} e.

(** ** CUE values *)

Module cue.
(** [Bottom true _] is the value a failed lookup returns; any other
    bottom is an evaluation error carried by the document. *)
#[warnings="-register-all"]
Inductive Value : Type :=
| Bottom (notExists : bool) (msg : string)
| Null
| Bool_ (b : bool)
| Int (z : Z)
| String_ (s : string)
| List_ (items : list Value)
| Struct (fields : list (string * Value)).

Inductive Kind : Type :=
| BottomKind | NullKind | BoolKind | IntKind | StringKind | ListKind | StructKind.

Fixpoint assoc (key : string) (fields : list (string * Value)) : option Value :=
  match fields with
  | [] => None
  | (k, v) :: rest => if String.eqb k key then Some v else assoc key rest
  end.

(** [v.LookupPath(cue.ParsePath(key))] for a one-selector path. *)
Definition LookupPath (v : Value) (key : string) : Value :=
  match v with
  | Struct fields =>
      match assoc key fields with
      | Some x => x
      | None => Bottom true ("field not found: " +:+ key)
      end
  | _ => Bottom true ("field not found: " +:+ key)
  end.

Definition Exists (v : Value) : bool :=
  match v with
  | Bottom notExists _ => negb notExists
  | _ => true
  end.

(** Bytes and letters of keys. *)
Definition lowerLetter (c : Ascii.ascii) : Ascii.ascii :=
  let n := Ascii.nat_of_ascii c in
  if (65 <=? n)%nat && (n <=? 90)%nat then Ascii.ascii_of_nat (n + 32) else c.

Definition isByte (c : Ascii.ascii) (n : nat) : bool :=
  (Ascii.nat_of_ascii c =? n)%nat.

(** A key as the decoder compares it with the name of a Go field: ASCII
    letters in lower case; the long s (U+017F, bytes C5 BF) counts as an s
    and the Kelvin sign (U+212A, bytes E2 84 AA) as a k. *)
Fixpoint foldKey (s : string) : string :=
  match s with
  | EmptyString => EmptyString
  | String c rest =>
      match rest with
      | String c2 rest2 =>
          if isByte c 197 && isByte c2 191 then String (Ascii.ascii_of_nat 115) (foldKey rest2)
          else
            match rest2 with
            | String c3 rest3 =>
                if isByte c 226 && isByte c2 132 && isByte c3 170
                then String (Ascii.ascii_of_nat 107) (foldKey rest3)
                else String (lowerLetter c) (foldKey rest)
            | EmptyString => String (lowerLetter c) (foldKey rest)
            end
      | EmptyString => String (lowerLetter c) EmptyString
      end
  end.

(** The first error a value carries: the value itself, or one found
    anywhere inside it, in a field of a struct or an element of a list.
    cue reports the errors of the parts on the whole. *)
Fixpoint firstError (v : Value) : option string :=
  match v with
  | Bottom _ msg => Some msg
  | List_ items =>
      (fix among (l : list Value) : option string :=
         match l with
         | [] => None
         | x :: rest =>
             match firstError x with
             | Some msg => Some msg
             | None => among rest
             end
         end) items
  | Struct fields =>
      (fix among (l : list (string * Value)) : option string :=
         match l with
         | [] => None
         | (_, x) :: rest =>
             match firstError x with
             | Some msg => Some msg
             | None => among rest
             end
         end) fields
  | _ => None
  end.

(** [v.Err()]: non-nil as soon as a part of the value is an error. *)
Definition Err (v : Value) : option error :=
  match firstError v with
  | Some msg => Some (RenderError msg)
  | None => None
  end.

Definition kind (v : Value) : Kind :=
  match v with
  | Bottom _ _ => BottomKind
  | Null => NullKind
  | Bool_ _ => BoolKind
  | Int _ => IntKind
  | String_ _ => StringKind
  | List_ _ => ListKind
  | Struct _ => StructKind
  end.

Definition isStringKind (v : Value) : bool :=
  match kind v with StringKind => true | _ => false end.

(** [v.List()]: fails on a list with an error anywhere inside an
    element. *)
Definition List (v : Value) : result (list Value) :=
  match v with
  | List_ items =>
      match firstError v with
      | Some msg => Failure (RenderError msg)
      | None => Success items
      end
  | Bottom _ msg => Failure (RenderError msg)
  | _ => Failure (ValueError "cannot use value as list")
  end.

(** [v.Fields()]: the fields of a struct in the order of the document;
    an error inside a field does not make the iteration fail. *)
Definition Fields (v : Value) : result (list (string * Value)) :=
  match v with
  | Struct fields => Success fields
  | Bottom _ msg => Failure (RenderError msg)
  | _ => Failure (ValueError "cannot use value as struct")
  end.

Definition String (v : Value) : result string :=
  match v with
  | String_ s => Success s
  | Bottom _ msg => Failure (RenderError msg)
  | _ => Failure (ValueError "cannot use value as string")
  end.

Definition Bool (v : Value) : result bool :=
  match v with
  | Bool_ b => Success b
  | Bottom _ msg => Failure (RenderError msg)
  | _ => Failure (ValueError "cannot use value as bool")
  end.

(** *** Decoding into Go values

    [v.Decode(x)] first fails on a value that carries an error anywhere
    inside.  Into a struct it goes through the fields of the value in
    order; a key is matched with the name of a Go field exactly or, failing
    that, without regard to case, and a key that matches no field is
    skipped.  Into a map or a slice, [null] is decoded without an error and
    leaves the nil map or slice. *)

Inductive resourceField : Type := fGroup | fResource | fName | fNamespace.

(** The field of [k8s.Resource] a key is decoded into. *)
Definition matchField (key : string) : option resourceField :=
  let folded := foldKey key in
  if String.eqb folded "group" then Some fGroup
  else if String.eqb folded "resource" then Some fResource
  else if String.eqb folded "name" then Some fName
  else if String.eqb folded "namespace" then Some fNamespace
  else None.

Definition setField (re : k8s.Resource) (f : resourceField) (s : string) : k8s.Resource :=
  match f with
  | fGroup => k8s.mk s (k8s.Resource_ re) (k8s.Name re) (k8s.Namespace re)
  | fResource => k8s.mk (k8s.Group re) s (k8s.Name re) (k8s.Namespace re)
  | fName => k8s.mk (k8s.Group re) (k8s.Resource_ re) s (k8s.Namespace re)
  | fNamespace => k8s.mk (k8s.Group re) (k8s.Resource_ re) (k8s.Name re) s
  end.

(** The fields are decoded one after the other: a later key for the same
    Go field replaces what an earlier one gave. *)
Fixpoint decodeFields (fields : list (string * Value)) (re : k8s.Resource)
  : result k8s.Resource :=
  match fields with
  | [] => Success re
  | (key, value) :: rest =>
      match matchField key with
      | None => decodeFields rest re
      | Some f =>
          match value with
          | String_ s => decodeFields rest (setField re f s)
          | _ => Failure (ValueError ("cannot decode field " +:+ key +:+ " into string"))
          end
      end
  end.

(** [v.Decode(re)] with [re : *k8s.Resource], starting from the zero
    value. *)
Definition DecodeResource (v : Value) : result k8s.Resource :=
  match firstError v with
  | Some msg => Failure (RenderError msg)
  | None =>
      match v with
      | Struct fields => decodeFields fields (k8s.mk "" "" "" "")
      | _ => Failure (ValueError "cannot decode value into struct")
      end
  end.

Fixpoint decodeStrings (items : list Value) : result (list string) :=
  match items with
  | [] => Success []
  | String_ s :: rest =>
      match decodeStrings rest with
      | Success l => Success (s :: l)
      | Failure e => Failure e
      end
  | _ :: _ => Failure (ValueError "cannot decode element into string")
  end.

(** [v.Decode(&names)] with [names : []string]. *)
Definition DecodeStrings (v : Value) : result (list string) :=
  match firstError v with
  | Some msg => Failure (RenderError msg)
  | None =>
      match v with
      | Null => Success []
      | List_ items => decodeStrings items
      | _ => Failure (ValueError "cannot decode value into slice")
      end
  end.

Fixpoint decodeStringMap (fields : list (string * Value)) (m : gmap string string)
  : result (gmap string string) :=
  match fields with
  | [] => Success m
  | (k, String_ s) :: rest => decodeStringMap rest (<[k := s]> m)
  | _ :: _ => Failure (ValueError "cannot decode field into string")
  end.

(** [v.Decode(&m)] with [m : map[string]string], when it succeeds. *)
Definition DecodeStringMap (v : Value) : result (gmap string string) :=
  match firstError v with
  | Some msg => Failure (RenderError msg)
  | None =>
      match v with
      | Null => Success ∅
      | Struct fields => decodeStringMap fields ∅
      | _ => Failure (ValueError "cannot decode value into map")
      end
  end.

(** What [v.Decode(&m)] leaves in a nil map [m] when it fails: nothing
    when the value carries an error, which is seen before the map is made;
    the empty map when the value is no struct; for a struct, an entry for
    every field, with the zero value where the field is no string. *)
Definition LeftInMap (v : Value) : option (gmap string string) :=
  match firstError v with
  | Some _ => None
  | None =>
      match v with
      | Null => None
      | Struct fields =>
          Some (fold_left
                  (fun m field =>
                     match field with
                     | (k, String_ s) => <[k := s]> m
                     | (k, _) => <[k := ""]> m
                     end)
                  fields ∅)
      | _ => Some ∅
      end
  end.
End cue.

(** ** The receiver, the environment and the monad of the engine *)

Record resourceTopology : Type := mkTopology {
  ruleTemplate : string;
  (** a Go map: [None] is nil *)
  rules : option (gmap string cue.Value)
}.

(** The collaborators the code reaches through [singleton.KubeClient],
    [cuex.DefaultCompiler] and the helpers of package [k8s]: one
    point-in-time answer per request. *)
Record Env : Type := mkEnv {
  GetUnstructuredFromResource : k8s.Resource -> result unstructured.Unstructured;
  CompileStringWithOptions : string -> unstructured.Unstructured -> result cue.Value;
  GetGVKFromResource : k8s.Resource -> result schema.GroupVersionKind;
  ListUnstructured :
    schema.GroupVersionKind -> list client.ListOption -> result (list unstructured.Unstructured);
  ListEndpointSlices : list client.ListOption -> result (list discoveryv1.EndpointSlice)
}.

(** Requests sent to the cluster client, in the order they are sent. *)
Inductive StoreCall : Type :=
| CallGet (resource : k8s.Resource)
| CallGVK (resource : k8s.Resource)
| CallList (gvk : schema.GroupVersionKind) (opts : list client.ListOption)
| CallListEndpointSlices (opts : list client.ListOption).

Record World : Type := mkWorld {
  receiver : resourceTopology;
  calls : list StoreCall
}.

Inductive outcome (A : Type) : Type :=
| Ok (a : A)
| Err (e : error)
| Panic (p : panic)
| Diverge.
Arguments Ok {A} a.
Arguments Err {A} e.
Arguments Panic {A} p.
Arguments Diverge {A}.

Definition M (A : Type) : Type := World -> outcome A * World.

Definition ret {A} (a : A) : M A := fun w => (Ok a, w).

Definition bind {A B} (m : M A) (k : A -> M B) : M B :=
  fun w =>
    match m w with
    | (Ok a, w') => k a w'
    | (Err e, w') => (Err e, w')
    | (Panic p, w') => (Panic p, w')
    | (Diverge, w') => (Diverge, w')
    end.

Definition throw {A} (e : error) : M A := fun w => (Err e, w).
Definition crash {A} (p : panic) : M A := fun w => (Panic p, w).
Definition diverge {A} : M A := fun w => (Diverge, w).

Definition lift {A} (r : result A) : M A :=
  match r with
  | Success a => ret a
  | Failure e => throw e
  end.

Definition getRules : M (option (gmap string cue.Value)) :=
  fun w => (Ok (rules (receiver w)), w).

Definition setRules (m : gmap string cue.Value) : M unit :=
  fun w => (Ok tt, mkWorld (mkTopology (ruleTemplate (receiver w)) (Some m)) (calls w)).

Definition getRuleTemplate : M string :=
  fun w => (Ok (ruleTemplate (receiver w)), w).

Definition record (c : StoreCall) : M unit :=
  fun w => (Ok tt, mkWorld (receiver w) (calls w ++ [c])).

Declare Scope go_scope.
Delimit Scope go_scope with go.
Notation "'do' x <- m ; k" := (bind m (fun x => k))
  (at level 10, x name, m at level 100, k at level 200) : go_scope.
Notation "'run' m ; k" := (bind m (fun _ => k))
  (at level 10, m at level 100, k at level 200) : go_scope.
Local Open Scope go_scope.

(** [for _, x := range xs { body }] with an accumulator. *)
Fixpoint forEach {A S} (xs : list A) (acc : S) (body : S -> A -> M S) : M S :=
  match xs with
  | [] => ret acc
  | x :: rest => do acc' <- body acc x; forEach rest acc' body
  end.

(** ** Constants *)

Definition rulesKey := "rules".
Definition subResourcesKey := "subResources".
Definition peerResourcesKey := "peerResources".
Definition selectorKey := "selector".

Definition nameSelectorKey := "name".
Definition namespaceSelectorKey := "namespace".
Definition builtinSelectorKey := "builtin".
Definition annotationsSelectorKey := "annotations".
Definition labelsSelectorKey := "labels".
Definition ownerReferenceSelectorKey := "ownerReference".

(** [fmt.Sprintf("%s/%s", group, resource)] *)
Definition ruleKey (group resource : string) : string :=
  group +:+ "/" +:+ resource.

(** ** Construction and rule lookup *)

Definition New (rules : string) : resourceTopology :=
  mkTopology rules (Some ∅).

(** The loop of [getRuleForResource]: every entry is decoded and stored
    under its group/kind key; a later entry replaces an earlier one. *)
Definition indexRule (entry : cue.Value) : M unit :=
  do re <- lift (cue.DecodeResource entry);
  do m <- getRules;
  setRules (<[ruleKey (k8s.Group re) (k8s.Resource_ re) := entry]> (default ∅ m)).

Definition getRuleForResource (v : cue.Value) (resource : k8s.Resource) : M cue.Value :=
  run (
  do m <- getRules;
  match m with
  | None =>
      run setRules ∅;
      let v := cue.LookupPath v rulesKey in
      if negb (cue.Exists v) then throw RulesNotFound
      else
        match cue.List v with
        | Failure e => throw (Wrap e "rules should be a list")
        | Success entries =>
            forEach entries tt (fun _ entry => indexRule entry)
        end
  | Some _ => ret tt
  end);
  do m <- getRules;
  match default ∅ m !! ruleKey (k8s.Group resource) (k8s.Resource_ resource) with
  | Some rule => ret rule
  | None => throw (RuleNotFound (k8s.Group resource) (k8s.Resource_ resource))
  end.

(** ** Sub-resource trees and selectors *)

#[warnings="-register-all"]
Inductive SubResource : Type := mkSub {
  Resource : k8s.Resource;
  Children : list SubResource
}.

Record ResourceSelector : Type := mkSelector {
  selGroup : string;
  selResource : string;
  SelectorKey : string;
  SelectorValue : cue.Value
}.

(** Modelled from the spec: [slices.Contains] is in a sibling package that
    is not part of the sources at hand; the spec calls it a membership
    test on identities under structural equality. *)
Fixpoint Contains (xs : list k8s.Resource) (x : k8s.Resource) : bool :=
  match xs with
  | [] => false
  | y :: rest => if decide (y = x) then true else Contains rest x
  end.

(** [strings.ToLower] on UTF-8 text, for the code points whose lower case
    is an ASCII letter: the ASCII capitals, U+0130 (bytes C4 B0), which
    becomes i, and the Kelvin sign U+212A (bytes E2 84 AA), which becomes k.
    The other code points are left as they are: their lower case is not an
    ASCII letter, and the code only compares the result with an ASCII
    literal. *)
Definition lowerAscii (c : Ascii.ascii) : Ascii.ascii :=
  let n := Ascii.nat_of_ascii c in
  if (65 <=? n)%nat && (n <=? 90)%nat then Ascii.ascii_of_nat (n + 32) else c.

Fixpoint ToLower (s : string) : string :=
  match s with
  | EmptyString => EmptyString
  | String c rest =>
      match rest with
      | String c2 rest2 =>
          if cue.isByte c 196 && cue.isByte c2 176 then String (Ascii.ascii_of_nat 105) (ToLower rest2)
          else
            match rest2 with
            | String c3 rest3 =>
                if cue.isByte c 226 && cue.isByte c2 132 && cue.isByte c3 170
                then String (Ascii.ascii_of_nat 107) (ToLower rest3)
                else String (lowerAscii c) (ToLower rest)
            | EmptyString => String (lowerAscii c) (ToLower rest)
            end
      | EmptyString => String (lowerAscii c) EmptyString
      end
  end.

(** [len(m)] of a Go map. *)
Definition mapLen (m : option (gmap string string)) : nat :=
  match m with
  | None => 0
  | Some m => size m
  end.

(** [reflect.DeepEqual] on two [map[string]string]: a nil map equals only
    a nil map; two maps are equal when they hold the same entries. *)
Definition DeepEqual (a b : option (gmap string string)) : bool :=
  bool_decide (a = b).

(** Dereferencing a pointer and indexing a slice. *)
Definition deref {A} (p : option A) : M A :=
  match p with
  | Some a => ret a
  | None => crash NilDereference
  end.

Definition index {A} (xs : list A) (i : nat) : M A :=
  match xs !! i with
  | Some a => ret a
  | None => crash (IndexOutOfRange i (length xs))
  end.

(** [x, err := m] followed by a test of [err]. *)
Definition attempt {A} (m : M A) : M (result A) :=
  fun w =>
    match m w with
    | (Ok a, w') => (Ok (Success a), w')
    | (Err e, w') => (Ok (Failure e), w')
    | (Panic p, w') => (Panic p, w')
    | (Diverge, w') => (Diverge, w')
    end.

Fixpoint getGroupResourceFromSubs (sub : SubResource) (group resource : string)
  : list k8s.Resource :=
  let result :=
    if decide (k8s.Group (Resource sub) = group /\ k8s.Resource_ (Resource sub) = resource)
    then [Resource sub] else [] in
  fold_left
    (fun result child => result ++ getGroupResourceFromSubs child group resource)
    (Children sub) result.

(** ** The engine *)

Section Engine.
Context (env : Env).

(** What the first [switch] of [listResources] leaves in [listOpts],
    [annos] and [owner]. *)
Record listPlan : Type := mkPlan {
  listOpts : list client.ListOption;
  annos : option (gmap string string);
  owner : bool
}.

Definition selectorPlan (selector : ResourceSelector) (relation : k8s.Resource)
  : M listPlan :=
  let key := SelectorKey selector in
  if decide (key = nameSelectorKey) then
    match cue.String (SelectorValue selector) with
    | Success ns => ret (mkPlan [client.InNamespace ns] None false)
    | Failure _ => ret (mkPlan [] None false)
    end
  else if decide (key = labelsSelectorKey) then
    match cue.DecodeStringMap (SelectorValue selector) with
    | Success labels => ret (mkPlan [client.MatchingLabels labels] None false)
    | Failure _ => ret (mkPlan [] None false)
    end
  else if decide (key = annotationsSelectorKey) then
    match cue.DecodeStringMap (SelectorValue selector) with
    | Success m => ret (mkPlan [] (Some m) false)
    | Failure _ => ret (mkPlan [] (cue.LeftInMap (SelectorValue selector)) false)
    end
  else if decide (key = ownerReferenceSelectorKey) then
    match cue.Bool (SelectorValue selector) with
    | Success b => ret (mkPlan [client.InNamespace (k8s.Namespace relation)] None b)
    | Failure _ => ret (mkPlan [] None false)
    end
  else throw (UnsupportedSelector key).

(** The loop of the [len(annos) > 0] case. *)
Definition filterAnnotations (annos : option (gmap string string))
    (items : list unstructured.Unstructured) : list unstructured.Unstructured :=
  fold_left
    (fun filtered un =>
       if DeepEqual (unstructured.GetAnnotations un) annos
       then filtered ++ [un] else filtered)
    items [].

(** The two nested loops of the [owner] case. *)
Definition filterOwner (relation : k8s.Resource)
    (items : list unstructured.Unstructured) : list unstructured.Unstructured :=
  fold_left
    (fun filtered un =>
       fold_left
         (fun filtered ref =>
            if decide (metav1.Name ref = k8s.Name relation
                       /\ metav1.Kind ref = k8s.Resource_ relation)
            then filtered ++ [un] else filtered)
         (unstructured.GetOwnerReferences un) filtered)
    items [].

Definition listResources (selector : ResourceSelector) (relation : k8s.Resource)
  : M (list unstructured.Unstructured) :=
  let resource := k8s.mk (selGroup selector) (selResource selector) "" "" in
  do plan <- selectorPlan selector relation;
  run record (CallGVK resource);
  do gvk <- lift (GetGVKFromResource env resource);
  run record (CallList gvk (listOpts plan));
  do items <- lift (ListUnstructured env gvk (listOpts plan));
  if (0 <? mapLen (annos plan))%nat then ret (filterAnnotations (annos plan) items)
  else if owner plan then ret (filterOwner relation items)
  else ret items.

Section Knot.
(** The recursive call of [getSubResources], with one unit of fuel
    less. *)
Variable getSubResources_rec : cue.Value -> k8s.Resource -> M (list SubResource).

Definition handleBuiltInRulesForService (v : cue.Value) (resource : k8s.Resource)
  : M (list k8s.Resource) :=
  do subs <- getSubResources_rec v resource;
  let pods :=
    fold_left (fun pods sub => pods ++ getGroupResourceFromSubs sub "" "Pod") subs [] in
  let opts := [client.InNamespace (k8s.Namespace resource)] in
  run record (CallListEndpointSlices opts);
  do es <- lift (ListEndpointSlices env opts);
  forEach es [] (fun service e =>
    forEach (discoveryv1.Endpoints e) service (fun service s =>
      do target <- deref (discoveryv1.TargetRef s);
      if Contains pods
           (k8s.mk "" (corev1.Kind target) (corev1.Name target) (corev1.Namespace target))
      then
        do first <- index (discoveryv1.OwnerReferences e) 0;
        ret (service ++ [k8s.mk "" "Service" (metav1.Name first) (k8s.Namespace resource)])
      else ret service)).

Definition handleBuiltInRules (typ : string) (v : cue.Value) (resource : k8s.Resource)
  : M (list k8s.Resource) :=
  if decide (ToLower typ = "service") then handleBuiltInRulesForService v resource
  else throw (UnsupportedBuiltin typ).

Definition namedResource (base resource : k8s.Resource) (name : string) : k8s.Resource :=
  k8s.mk (k8s.Group base) (k8s.Resource_ base) name (k8s.Namespace resource).

(** The [for fields.Next()] loop of [getResourcesWithSelector]; the
    [builtin] case returns from the function. *)
Fixpoint selectorFields (v : cue.Value) (base resource : k8s.Resource)
    (fields : list (string * cue.Value)) (resources : list k8s.Resource)
  : M (list k8s.Resource) :=
  match fields with
  | [] => ret resources
  | (label, value) :: rest =>
      if decide (label = builtinSelectorKey) then
        do typ <- lift (cue.String value);
        handleBuiltInRules typ v resource
      else if decide (label = nameSelectorKey) then
        if cue.isStringKind value then
          do name <- lift (cue.String value);
          selectorFields v base resource rest
            (resources ++ [namedResource base resource name])
        else
          do names <- lift (cue.DecodeStrings value);
          selectorFields v base resource rest
            (fold_left (fun resources name =>
                          resources ++ [namedResource base resource name])
               names resources)
      else
        let selector := mkSelector (k8s.Group base) (k8s.Resource_ base) label value in
        do items <- listResources selector resource;
        selectorFields v base resource rest
          (fold_left (fun resources item =>
                        resources ++ [k8s.mk (selGroup selector) (selResource selector)
                                        (unstructured.GetName item)
                                        (unstructured.GetNamespace item)])
             items resources)
  end.

Definition getResourcesWithSelector (v : cue.Value) (resource : k8s.Resource)
  : M (list k8s.Resource) :=
  do base <- lift (cue.DecodeResource v);
  let selVal := cue.LookupPath v selectorKey in
  if negb (cue.Exists selVal) then throw SelectorMissing
  else
    do fields <- lift (cue.Fields selVal);
    selectorFields v base resource fields [].

(** Go's nil slice and empty slice are both the empty list. *)
Definition getSubResources_body (v : cue.Value) (resource : k8s.Resource)
  : M (list SubResource) :=
  do found <- attempt (getRuleForResource v resource);
  match found with
  | Failure _ => ret []
  | Success rule =>
      let subs := cue.LookupPath rule subResourcesKey in
      if negb (cue.Exists subs) then ret []
      else
        match cue.List subs with
        | Failure e => throw (Wrap e "subResources should be a list")
        | Success decls =>
            forEach decls [] (fun subResources decl =>
              do items <- getResourcesWithSelector decl resource;
              forEach items subResources (fun subResources item =>
                do children <- getSubResources_rec v item;
                ret (subResources ++ [mkSub item children])))
        end
  end.
End Knot.

Fixpoint getSubResources (fuel : nat) (v : cue.Value) (resource : k8s.Resource)
  : M (list SubResource) :=
  match fuel with
  | O => diverge
  | S fuel' => getSubResources_body (getSubResources fuel') v resource
  end.

Definition getPeerResources (fuel : nat) (rule : cue.Value) (resource : k8s.Resource)
  : M (list k8s.Resource) :=
  let peer := cue.LookupPath rule peerResourcesKey in
  if negb (cue.Exists peer) then ret []
  else
    match cue.List peer with
    | Failure e => throw (Wrap e "peerResources should be a list")
    | Success decls =>
        forEach decls [] (fun peerResources decl =>
          do items <- getResourcesWithSelector (getSubResources fuel) decl resource;
          ret (peerResources ++ items))
    end.

(** The rendering both public methods start with. *)
Definition render (resource : k8s.Resource) : M cue.Value :=
  run record (CallGet resource);
  do un <- lift (GetUnstructuredFromResource env resource);
  do template <- getRuleTemplate;
  lift (CompileStringWithOptions env template un).

Definition GetSubResources (fuel : nat) (resource : k8s.Resource) : M (list SubResource) :=
  do v <- render resource;
  getSubResources fuel v resource.

Definition GetPeerResources (fuel : nat) (resource : k8s.Resource) : M (list k8s.Resource) :=
  do v <- render resource;
  match cue.Err v with
  | Some e => throw e
  | None =>
      do rule <- getRuleForResource v resource;
      getPeerResources fuel rule resource
  end.
End Engine.

(** * Specification-side definitions *)

(** ** Owner references *)

Definition ownedBy (relation : k8s.Resource) (ref : metav1.OwnerReference) : Prop :=
  metav1.Name ref = k8s.Name relation /\ metav1.Kind ref = k8s.Resource_ relation.

#[global] Instance ownedBy_dec relation ref : Decision (ownedBy relation ref).
Proof. unfold ownedBy. apply _. Defined.

(** How many owner references of [un] name the relation resource. *)
Definition ownerMatches (relation : k8s.Resource) (un : unstructured.Unstructured) : nat :=
  length (filter (ownedBy relation) (unstructured.GetOwnerReferences un)).

(** ** Annotations *)

(** The full annotation mapping of an object; an object without an
    annotations field has the empty mapping. *)
Definition annotationsOf (un : unstructured.Unstructured) : gmap string string :=
  default ∅ (unstructured.GetAnnotations un).

(** The annotations selector as a plain filter, for every mapping: the
    items kept are the listed items whose annotation mapping is the
    selector's.  [env], [value] and [relation] are the store, the selector
    value and the relation resource. *)
Definition annotationsKeepsEqualOnly (env : Env) (group kind : string)
    (value : cue.Value) (relation : k8s.Resource) (w : World) : Prop :=
  forall m gvk items,
    cue.DecodeStringMap value = Success m ->
    GetGVKFromResource env (k8s.mk group kind "" "") = Success gvk ->
    ListUnstructured env gvk [] = Success items ->
    exists kept w',
      listResources env (mkSelector group kind annotationsSelectorKey value) relation w
        = (Ok kept, w')
      /\ forall un, un ∈ kept <-> un ∈ items /\ annotationsOf un = m.

(** ** Literal names *)

(** The names a [name] selector value spells out: one for a string, one
    per element for a list of strings. *)
Definition literalNames (value : cue.Value) : option (list string) :=
  match value with
  | cue.String_ s => Some [s]
  | cue.List_ items =>
      match cue.decodeStrings items with
      | Success names => Some names
      | Failure _ => None
      end
  | _ => None
  end.

(** The [name] selector read for every selector that has the key: one
    identity per literal name, and the world (receiver and requests sent)
    as it was. *)
Definition nameKeyAloneDecides (env : Env)
    (rec : cue.Value -> k8s.Resource -> M (list SubResource))
    (v : cue.Value) (resource : k8s.Resource) (w : World) : Prop :=
  forall base fields value names,
    cue.DecodeResource v = Success base ->
    cue.Fields (cue.LookupPath v selectorKey) = Success fields ->
    cue.assoc nameSelectorKey fields = Some value ->
    literalNames value = Some names ->
    getResourcesWithSelector env rec v resource w
    = (Ok (map (fun name =>
                  k8s.mk (k8s.Group base) (k8s.Resource_ base) name (k8s.Namespace resource))
             names),
       w).

(** ** The service heuristic *)

(** The identities of a tree, root first. *)
Fixpoint nodes (sub : SubResource) : list k8s.Resource :=
  Resource sub :: (Children sub ≫= nodes).

Definition isPod (r : k8s.Resource) : Prop :=
  k8s.Group r = "" /\ k8s.Resource_ r = "Pod".

#[global] Instance isPod_dec r : Decision (isPod r).
Proof. unfold isPod. apply _. Defined.

(** The Pod-kind nodes of a forest. *)
Definition podNodes (subs : list SubResource) : list k8s.Resource :=
  filter isPod (subs ≫= nodes).

Definition targetIdentity (t : corev1.ObjectReference) : k8s.Resource :=
  k8s.mk "" (corev1.Kind t) (corev1.Name t) (corev1.Namespace t).

(** An endpoint matches when its target reference is a Pod-kind node. *)
Definition matchesPod (subs : list SubResource) (s : discoveryv1.Endpoint) : Prop :=
  exists t, discoveryv1.TargetRef s = Some t /\ targetIdentity t ∈ podNodes subs.

#[global] Instance matchesPod_dec subs s : Decision (matchesPod subs s).
Proof.
  unfold matchesPod. destruct (discoveryv1.TargetRef s) as [t|].
  - destruct (decide (targetIdentity t ∈ podNodes subs)) as [H|H].
    + left. by exists t.
    + right. intros (t' & [= <-] & H'). done.
  - right. by intros (t & [=] & _).
Defined.

Definition firstOwnerName (e : discoveryv1.EndpointSlice) : string :=
  from_option metav1.Name "" (head (discoveryv1.OwnerReferences e)).

(** The identity the heuristic gives out for a slice. *)
Definition serviceOf (resource : k8s.Resource) (e : discoveryv1.EndpointSlice)
  : k8s.Resource :=
  k8s.mk "" "Service" (firstOwnerName e) (k8s.Namespace resource).

(** One Service identity per matching endpoint, slice by slice and
    endpoint by endpoint. *)
Definition emitted (subs : list SubResource) (resource : k8s.Resource)
    (slices : list discoveryv1.EndpointSlice) : list k8s.Resource :=
  slices ≫= fun e =>
    (fun _ => serviceOf resource e) <$> filter (matchesPod subs) (discoveryv1.Endpoints e).

(** The body of the inner loop of [handleBuiltInRulesForService], once the
    candidates are known to be the Pod-kind nodes of [subs]. *)
Definition visit (subs : list SubResource) (resource : k8s.Resource)
    (e : discoveryv1.EndpointSlice) (service : list k8s.Resource)
    (s : discoveryv1.Endpoint) : M (list k8s.Resource) :=
  (do target <- deref (discoveryv1.TargetRef s);
   if Contains (podNodes subs)
        (k8s.mk "" (corev1.Kind target) (corev1.Name target) (corev1.Namespace target))
   then
     do first <- index (discoveryv1.OwnerReferences e) 0;
     ret (service ++ [k8s.mk "" "Service" (metav1.Name first) (k8s.Namespace resource)])
   else ret service)%go.

(** ** Sample cluster *)

Module Sample.
Definition deployment : k8s.Resource := k8s.mk "apps" "Deployment" "web" "ns".

Definition live : unstructured.Unstructured := unstructured.mkUn "web" "ns" None [].

Definition gvkOf (r : k8s.Resource) : schema.GroupVersionKind :=
  schema.mkGVK (k8s.Group r) "v1" (k8s.Resource_ r).

Definition replicaSet : unstructured.Unstructured :=
  unstructured.mkUn "web-rs" "ns" None
    [metav1.mkOwner "apps/v1" "Deployment" "web" "uid-1"].

(** A replica set that two owner references attribute to the deployment
    [web], one per API version of the owner. *)
Definition twiceOwned : unstructured.Unstructured :=
  unstructured.mkUn "web-rs" "ns" None
    [metav1.mkOwner "apps/v1" "Deployment" "web" "uid-1";
     metav1.mkOwner "extensions/v1beta1" "Deployment" "web" "uid-2"].

Definition strayReplicaSet : unstructured.Unstructured :=
  unstructured.mkUn "other-rs" "ns" None
    [metav1.mkOwner "apps/v1" "Deployment" "other" "uid-3"].

Definition p1 : unstructured.Unstructured :=
  unstructured.mkUn "p1" "ns" (Some {["team" := "a"]})
    [metav1.mkOwner "apps/v1" "ReplicaSet" "web-rs" "uid-4"].

Definition p2 : unstructured.Unstructured :=
  unstructured.mkUn "p2" "ns" None
    [metav1.mkOwner "apps/v1" "ReplicaSet" "web-rs" "uid-4"].

(** A store that answers every request; the objects listed depend on
    the kind only. *)
Definition store (document : cue.Value)
    (replicaSets : list unstructured.Unstructured)
    (slices : list discoveryv1.EndpointSlice) : Env :=
  mkEnv
    (fun _ => Success live)
    (fun _ _ => Success document)
    (fun r => Success (gvkOf r))
    (fun gvk _ =>
       if decide (schema.Kind gvk = "ReplicaSet") then Success replicaSets
       else if decide (schema.Kind gvk = "Pod") then Success [p1; p2]
       else Success [])
    (fun _ => Success slices).

Definition declaration (group kind : string) (selector : list (string * cue.Value))
  : cue.Value :=
  cue.Struct [("group", cue.String_ group); ("resource", cue.String_ kind);
              ("selector", cue.Struct selector)].

Definition rule (group kind : string) (subs peers : list cue.Value) : cue.Value :=
  cue.Struct [("group", cue.String_ group); ("resource", cue.String_ kind);
              ("subResources", cue.List_ subs); ("peerResources", cue.List_ peers)].

Definition ownedReplicaSets : cue.Value :=
  declaration "apps" "ReplicaSet" [("ownerReference", cue.Bool_ true)].

Definition ownedPods : cue.Value :=
  declaration "" "Pod" [("ownerReference", cue.Bool_ true)].

Definition builtinService : cue.Value :=
  declaration "" "Service" [("builtin", cue.String_ "service")].

(** Rules for deployments and replica sets. *)
Definition document : cue.Value :=
  cue.Struct
    [("rules", cue.List_
       [rule "apps" "Deployment" [ownedReplicaSets] [builtinService];
        rule "apps" "ReplicaSet" [ownedPods] []])].

(** A rendered document without a rules section, and one that is an
    evaluation error. *)
Definition noRules : cue.Value := cue.Struct [("version", cue.String_ "v1")].
Definition broken : cue.Value := cue.Bottom false "conflicting values".

(** A receiver made by [New], and the zero value of the struct, which
    code inside the package can use. *)
Definition fresh : World := mkWorld (New "template") [].
Definition zero : World := mkWorld (mkTopology "template" None) [].

Definition ownedBySvcA : list metav1.OwnerReference :=
  [metav1.mkOwner "v1" "Service" "svc-a" "uid-5"].

Definition toPod (name : string) : discoveryv1.Endpoint :=
  discoveryv1.mkEndpoint (Some (corev1.mkRef "Pod" "ns" name)).

(** One slice owned by the service [svc-a] that targets [p1] and a pod
    outside the tree. *)
Definition slices : list discoveryv1.EndpointSlice :=
  [discoveryv1.mkSlice "svc-a-x" ownedBySvcA [toPod "p1"; toPod "p9"]].

(** A slice with an endpoint that has no target reference, as for
    endpoints that are not pods; and a slice without owner references,
    as for slices written by hand. *)
Definition untargeted : list discoveryv1.EndpointSlice :=
  [discoveryv1.mkSlice "kubernetes" ownedBySvcA [discoveryv1.mkEndpoint None]].
Definition unowned : list discoveryv1.EndpointSlice :=
  [discoveryv1.mkSlice "manual" [] [toPod "p1"]].

(** The tree of the deployment when the store lists [replicaSet], and
    the world after its expansion from the zero receiver. *)
Definition pod (name : string) : SubResource := mkSub (k8s.mk "" "Pod" name "ns") [].
Definition tree : list SubResource :=
  [mkSub (k8s.mk "apps" "ReplicaSet" "web-rs" "ns") [pod "p1"; pod "p2"]].
Definition expanded : World :=
  snd (getSubResources (store document [replicaSet] slices) 3 document deployment zero).
End Sample.

(** * Further specification-side definitions *)

(** ** The rule index *)

(** The key an entry of the rules list is stored under, when the entry
    decodes. *)
Definition entryKey (entry : cue.Value) : option string :=
  match cue.DecodeResource entry with
  | Success re => Some (ruleKey (k8s.Group re) (k8s.Resource_ re))
  | Failure _ => None
  end.

(** The rule a list of entries holds for a key: the last entry stored
    under it. *)
Definition ruleAmong (entries : list cue.Value) (key : string) : option cue.Value :=
  last (filter (fun entry => entryKey entry = Some key) entries).

(** The world with the index of the receiver replaced. *)
Definition withIndex (w : World) (index : gmap string cue.Value) : World :=
  mkWorld (mkTopology (ruleTemplate (receiver w)) (Some index)) (calls w).

(** ** Invariants of the world *)

(** A computation keeps [P] when it ends, in whatever way, in a world
    where [P] holds if it started in one. *)
Definition keeps {A} (P : World -> Prop) (m : M A) : Prop :=
  forall w, P w -> P (snd (m w)).

(** ** Declarations that spell out names *)

(** The identities a declaration gives for a context resource when
    [name] is the only key of its selector. *)
Definition namedChildren (resource : k8s.Resource) (decl : cue.Value)
  : option (list k8s.Resource) :=
  match cue.DecodeResource decl, cue.Fields (cue.LookupPath decl selectorKey) with
  | Success base, Success [(label, value)] =>
      if decide (label = nameSelectorKey) then
        map (fun name =>
               k8s.mk (k8s.Group base) (k8s.Resource_ base) name (k8s.Namespace resource))
          <$> literalNames value
      else None
  | _, _ => None
  end.

(** ** Keys of a list query *)

(** The keys the first [switch] of [listResources] has a case for. *)
Definition listQueryKey (key : string) : Prop :=
  key = nameSelectorKey \/ key = labelsSelectorKey
  \/ key = annotationsSelectorKey \/ key = ownerReferenceSelectorKey.

(** A [labels] value that is not a mapping of strings, or an
    [ownerReference] value that is not a boolean. *)
Definition misshapen (key : string) (value : cue.Value) : Prop :=
  (key = labelsSelectorKey /\ exists e, cue.DecodeStringMap value = Failure e)
  \/ (key = ownerReferenceSelectorKey /\ exists e, cue.Bool value = Failure e).

(** ** Selectors with several keys *)

Definition noBuiltin (fields : list (string * cue.Value)) : Prop :=
  Forall (fun field => field.1 ≠ builtinSelectorKey) fields.

(** ** More sample data *)

Module Cases.
(** An entry of the rules list whose group is not a string, and a
    document that has it between two entries that decode. *)
Definition undecodable : cue.Value := cue.Struct [("group", cue.Int 1)].
Definition deploymentRule : cue.Value :=
  Sample.rule "apps" "Deployment" [Sample.ownedReplicaSets] [Sample.builtinService].
Definition replicaSetRule : cue.Value :=
  Sample.rule "apps" "ReplicaSet" [Sample.ownedPods] [].
Definition halfBroken : cue.Value :=
  cue.Struct [("rules", cue.List_ [deploymentRule; undecodable; replicaSetRule])].

(** A rule for deployments whose first declaration names the deployment
    [web] itself. *)
Definition itself : cue.Value :=
  Sample.declaration "apps" "Deployment" [("name", cue.String_ "web")].
Definition selfRule : cue.Value := Sample.rule "apps" "Deployment" [itself] [].

(** A rule for deployments that names two services and a config map as
    sub-resources and as peers; there is no rule for either kind. *)
Definition services : cue.Value :=
  Sample.declaration "" "Service"
    [("name", cue.List_ [cue.String_ "a"; cue.String_ "b"])].
Definition configMap : cue.Value :=
  Sample.declaration "" "ConfigMap" [("name", cue.String_ "c")].
Definition namingRule : cue.Value :=
  Sample.rule "apps" "Deployment" [services; configMap] [services; configMap].

(** A rule whose [subResources] field is a string and that has no
    [peerResources] field. *)
Definition crookedRule : cue.Value :=
  cue.Struct [("group", cue.String_ "apps"); ("resource", cue.String_ "Deployment");
              ("subResources", cue.String_ "pods")].

(** A world whose receiver holds one rule, for deployments. *)
Definition holding (rule : cue.Value) : World :=
  withIndex Sample.zero {["apps/Deployment" := rule]}.

(** Stores that fail: at the fetch, at the resolution of the kind, at
    a list request scoped by namespace (the other list requests are
    answered). *)
Definition unreachable : Env :=
  mkEnv (fun _ => Failure (StoreError "not found"))
    (fun _ _ => Success Sample.document)
    (fun r => Success (Sample.gvkOf r))
    (fun _ _ => Success [])
    (fun _ => Success []).
Definition unresolving : Env :=
  mkEnv (fun _ => Success Sample.live)
    (fun _ _ => Success Sample.document)
    (fun _ => Failure (StoreError "no matches for kind"))
    (fun _ _ => Success [])
    (fun _ => Success []).
Definition forbidding : Env :=
  mkEnv (fun _ => Success Sample.live)
    (fun _ _ => Success Sample.document)
    (fun r => Success (Sample.gvkOf r))
    (fun _ opts =>
       match opts with
       | client.InNamespace _ :: _ => Failure (StoreError "forbidden")
       | _ => Success [Sample.p1; Sample.p2]
       end)
    (fun _ => Success []).

(** Declarations for pods: by name, by annotations, by both; and one
    with a [builtin] key between two other keys. *)
Definition byName : cue.Value :=
  Sample.declaration "" "Pod" [("name", cue.String_ "p0")].
Definition byAnnotations : cue.Value :=
  Sample.declaration "" "Pod" [("annotations", cue.Struct [("team", cue.String_ "a")])].
Definition byBoth : cue.Value :=
  Sample.declaration "" "Pod"
    [("name", cue.String_ "p0");
     ("annotations", cue.Struct [("team", cue.String_ "a")])].
Definition withBuiltin : cue.Value :=
  Sample.declaration "" "Pod"
    [("name", cue.String_ "p0");
     ("builtin", cue.String_ "Ingress");
     ("labels", cue.Struct [("app", cue.String_ "web")])].

Definition plain : Env := Sample.store Sample.document [] [].

(** A slice owned by the service [svc-a] whose first endpoint targets the
    pod [p1] and whose second endpoint has no target reference. *)
Definition halfTargeted : list discoveryv1.EndpointSlice :=
  [discoveryv1.mkSlice "svc-a-x" Sample.ownedBySvcA
     [Sample.toPod "p1"; discoveryv1.mkEndpoint None]].
End Cases.

(** * Properties *)

(** ** Running the monad *)

Lemma bind_Ok {A B} (m : M A) (k : A -> M B) w a w' :
  m w = (Ok a, w') -> bind m k w = k a w'.
Proof. intros H. unfold bind. by rewrite H. Qed.

Lemma bind_Err {A B} (m : M A) (k : A -> M B) w e w' :
  m w = (Err e, w') -> bind m k w = (Err e, w').
Proof. intros H. unfold bind. by rewrite H. Qed.

Lemma bind_Panic {A B} (m : M A) (k : A -> M B) w p w' :
  m w = (Panic p, w') -> bind m k w = (Panic p, w').
Proof. intros H. unfold bind. by rewrite H. Qed.

Lemma lift_Success {A} (r : result A) a w :
  r = Success a -> lift r w = (Ok a, w).
Proof. by intros ->. Qed.

(** A loop whose body never fails is a fold. *)
Lemma forEach_pure {A S} (f : S -> A -> S) (xs : list A) (acc : S) w :
  forEach xs acc (fun acc x => ret (f acc x)) w = (Ok (fold_left f xs acc), w).
Proof.
  revert acc. induction xs as [|x xs IH]; intros acc; simpl; [done|].
  unfold bind at 1. simpl. apply IH.
Qed.

(** ** The two in-memory filters of [listResources] *)

Section Filters.
Implicit Types (items : list unstructured.Unstructured) (un : unstructured.Unstructured).

Lemma filterAnnotations_acc annos items acc :
  fold_left
    (fun filtered un =>
       if DeepEqual (unstructured.GetAnnotations un) annos
       then filtered ++ [un] else filtered)
    items acc
  = acc ++ filter (fun un => unstructured.GetAnnotations un = annos) items.
Proof.
  revert acc. induction items as [|un items IH]; intros acc; simpl.
  - by rewrite app_nil_r.
  - rewrite IH. unfold DeepEqual. rewrite filter_cons.
    case_bool_decide; case_decide; try done.
    by rewrite <- app_assoc.
Qed.

Lemma filterAnnotations_filter annos items :
  filterAnnotations annos items
  = filter (fun un => unstructured.GetAnnotations un = annos) items.
Proof. unfold filterAnnotations. by rewrite filterAnnotations_acc. Qed.

Lemma ownerLoop_acc relation un refs acc :
  fold_left
    (fun filtered ref =>
       if decide (metav1.Name ref = k8s.Name relation
                  /\ metav1.Kind ref = k8s.Resource_ relation)
       then filtered ++ [un] else filtered)
    refs acc
  = acc ++ replicate (length (filter (ownedBy relation) refs)) un.
Proof.
  revert acc. induction refs as [|ref refs IH]; intros acc; simpl.
  - by rewrite app_nil_r.
  - rewrite IH, filter_cons. unfold ownedBy at 2.
    repeat case_decide; try done; simpl.
    by rewrite <- app_assoc.
Qed.

Lemma filterOwner_acc relation items acc :
  fold_left
    (fun filtered un =>
       fold_left
         (fun filtered ref =>
            if decide (metav1.Name ref = k8s.Name relation
                       /\ metav1.Kind ref = k8s.Resource_ relation)
            then filtered ++ [un] else filtered)
         (unstructured.GetOwnerReferences un) filtered)
    items acc
  = acc ++ (items ≫= fun un => replicate (ownerMatches relation un) un).
Proof.
  revert acc. induction items as [|un items IH]; intros acc; simpl.
  - by rewrite app_nil_r.
  - rewrite IH, ownerLoop_acc. by rewrite <- app_assoc.
Qed.

(** Every listed item is kept once per matching owner reference. *)
Lemma filterOwner_replicate relation items :
  filterOwner relation items
  = items ≫= fun un => replicate (ownerMatches relation un) un.
Proof. unfold filterOwner. by rewrite filterOwner_acc. Qed.

Lemma ownerMatches_pos relation un :
  ownerMatches relation un ≠ 0
  <-> exists ref, ref ∈ unstructured.GetOwnerReferences un /\ ownedBy relation ref.
Proof.
  unfold ownerMatches. split.
  - intros Hn. destruct (filter _ _) as [|ref l] eqn:E; [done|].
    exists ref. apply and_comm, (list_elem_of_filter (ownedBy relation)).
    rewrite E. left.
  - intros (ref & Hin & Hown) Hz.
    assert (ref ∈ filter (ownedBy relation) (unstructured.GetOwnerReferences un)) as Hf
      by (by apply list_elem_of_filter).
    apply length_zero_iff_nil in Hz. rewrite Hz in Hf. by apply elem_of_nil in Hf.
Qed.

Lemma elem_of_filterOwner relation items un :
  un ∈ filterOwner relation items
  <-> un ∈ items
      /\ exists ref, ref ∈ unstructured.GetOwnerReferences un /\ ownedBy relation ref.
Proof.
  rewrite filterOwner_replicate, list_elem_of_bind. split.
  - intros (y & Hrep & Hin). apply elem_of_replicate in Hrep as [-> Hn].
    split; [done|]. by apply ownerMatches_pos.
  - intros [Hin Hex]. exists un. split; [|done].
    apply elem_of_replicate. split; [done|]. by apply ownerMatches_pos.
Qed.
End Filters.

(** ** Selectors evaluated by a list query *)

Section ListResources.
Context (env : Env).

Lemma selectorPlan_ownerReference group kind b relation w :
  selectorPlan (mkSelector group kind ownerReferenceSelectorKey (cue.Bool_ b)) relation w
  = (Ok (mkPlan [client.InNamespace (k8s.Namespace relation)] None b), w).
Proof. reflexivity. Qed.

Lemma selectorPlan_annotations group kind value m relation w :
  cue.DecodeStringMap value = Success m ->
  selectorPlan (mkSelector group kind annotationsSelectorKey value) relation w
  = (Ok (mkPlan [] (Some m) false), w).
Proof. intros H. unfold selectorPlan. simpl. by rewrite H. Qed.

Lemma selectorPlan_namespace group kind value relation w :
  selectorPlan (mkSelector group kind namespaceSelectorKey value) relation w
  = (Err (UnsupportedSelector "namespace"), w).
Proof. reflexivity. Qed.

(** What [listResources] does once the first [switch] has chosen a
    plan and both requests succeed. *)
Lemma listResources_plan selector relation w plan gvk items :
  selectorPlan selector relation w = (Ok plan, w) ->
  GetGVKFromResource env (k8s.mk (selGroup selector) (selResource selector) "" "")
    = Success gvk ->
  ListUnstructured env gvk (listOpts plan) = Success items ->
  listResources env selector relation w
  = (Ok (if (0 <? mapLen (annos plan))%nat then filterAnnotations (annos plan) items
         else if owner plan then filterOwner relation items
         else items),
     mkWorld (receiver w)
       (calls w ++ [CallGVK (k8s.mk (selGroup selector) (selResource selector) "" "");
                    CallList gvk (listOpts plan)])).
Proof.
  intros Hplan Hgvk Hlist. unfold listResources.
  rewrite (bind_Ok _ _ _ _ _ Hplan).
  unfold bind, record, lift; simpl. rewrite Hgvk; simpl. rewrite Hlist; simpl.
  rewrite <- app_assoc; simpl.
  destruct (0 <? mapLen (annos plan))%nat; [done|]. by destruct (owner plan).
Qed.
End ListResources.

Section ListQueries.
Context (env : Env).

(** C7: for an [ownerReference: true] selector the list request carries
    the relation resource's namespace, and the items kept are exactly the
    listed items with at least one owner reference whose name and kind
    are the relation resource's name and kind. *)
Theorem ownerReference_scopes_and_filters group kind relation w gvk items :
  GetGVKFromResource env (k8s.mk group kind "" "") = Success gvk ->
  ListUnstructured env gvk [client.InNamespace (k8s.Namespace relation)] = Success items ->
  exists kept,
    listResources env (mkSelector group kind ownerReferenceSelectorKey (cue.Bool_ true))
      relation w
    = (Ok kept,
       mkWorld (receiver w)
         (calls w ++ [CallGVK (k8s.mk group kind "" "");
                      CallList gvk [client.InNamespace (k8s.Namespace relation)]]))
    /\ forall un,
         un ∈ kept
         <-> un ∈ items
             /\ exists ref, ref ∈ unstructured.GetOwnerReferences un
                            /\ metav1.Name ref = k8s.Name relation
                            /\ metav1.Kind ref = k8s.Resource_ relation.
Proof.
  intros Hgvk Hlist. exists (filterOwner relation items). split.
  - by rewrite (listResources_plan env _ relation w _ gvk items
                  (selectorPlan_ownerReference group kind true relation w) Hgvk Hlist).
  - intros un. apply elem_of_filterOwner.
Qed.

(** C9, amended: an annotations selector with a non-empty mapping keeps
    exactly the listed items whose annotation mapping is that mapping,
    in the order listed; with an empty mapping nothing is filtered and
    every listed item is kept. *)
Theorem annotations_filters_when_nonempty group kind value m relation w gvk items :
  cue.DecodeStringMap value = Success m ->
  GetGVKFromResource env (k8s.mk group kind "" "") = Success gvk ->
  ListUnstructured env gvk [] = Success items ->
  listResources env (mkSelector group kind annotationsSelectorKey value) relation w
  = (Ok (if decide (m = ∅) then items
         else filter (fun un => annotationsOf un = m) items),
     mkWorld (receiver w)
       (calls w ++ [CallGVK (k8s.mk group kind "" ""); CallList gvk []])).
Proof.
  intros Hm Hgvk Hlist.
  rewrite (listResources_plan env _ relation w _ gvk items
             (selectorPlan_annotations group kind value m relation w Hm) Hgvk Hlist).
  simpl. f_equal. f_equal. case_decide as Hempty.
  - subst m. by rewrite map_size_empty.
  - apply map_size_non_empty_iff in Hempty.
    destruct (0 <? size m)%nat eqn:Hlt; [|apply Nat.ltb_ge in Hlt; lia].
    rewrite filterAnnotations_filter. apply list_filter_iff. intros un.
    unfold annotationsOf. destruct (unstructured.GetAnnotations un) as [a|]; simpl.
    + split; [by intros [= ->] | by intros ->].
    + split; [done|]. intros <-. by rewrite map_size_empty in Hempty.
Qed.

(** C3: a selector under the key [namespace] is rejected by the first
    [switch] of [listResources], before any request is sent; the case
    that would scope the list by namespace is guarded by the [name]
    key. *)
Theorem namespace_selector_unsupported group kind value relation w :
  listResources env (mkSelector group kind namespaceSelectorKey value) relation w
  = (Err (UnsupportedSelector "namespace"), w).
Proof. reflexivity. Qed.
End ListQueries.

(** The owner-reference selector on the sample cluster: the stray replica
    set is dropped. *)
Lemma ownerReference_scopes_and_filters_witness :
  exists kept,
    listResources (Sample.store Sample.document [Sample.replicaSet; Sample.strayReplicaSet] [])
      (mkSelector "apps" "ReplicaSet" ownerReferenceSelectorKey (cue.Bool_ true))
      Sample.deployment Sample.fresh
    = (Ok kept,
       mkWorld (receiver Sample.fresh)
         (calls Sample.fresh
          ++ [CallGVK (k8s.mk "apps" "ReplicaSet" "" "");
              CallList (schema.mkGVK "apps" "v1" "ReplicaSet") [client.InNamespace "ns"]]))
    /\ forall un,
         un ∈ kept
         <-> un ∈ [Sample.replicaSet; Sample.strayReplicaSet]
             /\ exists ref, ref ∈ unstructured.GetOwnerReferences un
                            /\ metav1.Name ref = "web"
                            /\ metav1.Kind ref = "Deployment".
Proof.
  apply (ownerReference_scopes_and_filters
           (Sample.store Sample.document [Sample.replicaSet; Sample.strayReplicaSet] [])
           "apps" "ReplicaSet" Sample.deployment Sample.fresh
           (schema.mkGVK "apps" "v1" "ReplicaSet")
           [Sample.replicaSet; Sample.strayReplicaSet]); reflexivity.
Defined.

(** The annotations selector [{team: "a"}] on the sample pods keeps [p1]
    only. *)
Lemma annotations_filters_when_nonempty_witness :
  listResources (Sample.store Sample.document [] [])
    (mkSelector "" "Pod" annotationsSelectorKey (cue.Struct [("team", cue.String_ "a")]))
    Sample.deployment Sample.fresh
  = (Ok (if decide (({["team" := "a"]} : gmap string string) = ∅) then [Sample.p1; Sample.p2]
         else filter (fun un => annotationsOf un = {["team" := "a"]}) [Sample.p1; Sample.p2]),
     mkWorld (receiver Sample.fresh)
       (calls Sample.fresh
        ++ [CallGVK (k8s.mk "" "Pod" "" ""); CallList (schema.mkGVK "" "v1" "Pod") []])).
Proof.
  apply (annotations_filters_when_nonempty (Sample.store Sample.document [] [])
           "" "Pod" (cue.Struct [("team", cue.String_ "a")]) {["team" := "a"]}
           Sample.deployment Sample.fresh (schema.mkGVK "" "v1" "Pod")
           [Sample.p1; Sample.p2]); reflexivity.
Defined.

(** C9, as stated, fails for the empty mapping: the selector [{}] keeps
    [p1], whose annotation mapping is [{team: "a"}]. *)
Lemma annotations_empty_mapping_keeps_all :
  ~ annotationsKeepsEqualOnly (Sample.store Sample.document [] []) "" "Pod"
      (cue.Struct []) Sample.deployment Sample.fresh.
Proof.
  intros Hall.
  destruct (Hall ∅ (schema.mkGVK "" "v1" "Pod") [Sample.p1; Sample.p2]
              eq_refl eq_refl eq_refl) as (kept & w' & Hrun & Hkept).
  rewrite (listResources_plan (Sample.store Sample.document [] [])
             (mkSelector "" "Pod" annotationsSelectorKey (cue.Struct []))
             Sample.deployment Sample.fresh (mkPlan [] (Some ∅) false)
             (schema.mkGVK "" "v1" "Pod") [Sample.p1; Sample.p2]
             eq_refl eq_refl eq_refl) in Hrun.
  simpl in Hrun. injection Hrun as <- _.
  destruct (Hkept Sample.p1) as [Hto _].
  destruct Hto as [_ Heq]; [left|].
  unfold annotationsOf, Sample.p1 in Heq; simpl in Heq.
  by apply (map_non_empty_singleton (M := gmap string)) in Heq.
Qed.

(** C4: an item with two owner references that name the relation
    resource is appended once per reference, so one [ownerReference]
    selector yields the same identity twice. *)
Theorem ownerReference_selector_repeats_item :
  fst (getResourcesWithSelector
         (Sample.store Sample.document [Sample.twiceOwned] [])
         (getSubResources (Sample.store Sample.document [Sample.twiceOwned] []) 0)
         Sample.ownedReplicaSets Sample.deployment Sample.fresh)
  = Ok [k8s.mk "apps" "ReplicaSet" "web-rs" "ns"; k8s.mk "apps" "ReplicaSet" "web-rs" "ns"]
  /\ ~ NoDup [k8s.mk "apps" "ReplicaSet" "web-rs" "ns"; k8s.mk "apps" "ReplicaSet" "web-rs" "ns"].
Proof.
  split; [reflexivity|].
  intros Hnodup. apply NoDup_cons_1_1 in Hnodup. apply Hnodup. left.
Qed.

(** The rejection of [namespace] seen from a declaration. *)
Lemma namespace_declaration_fails :
  getResourcesWithSelector (Sample.store Sample.document [] [])
    (getSubResources (Sample.store Sample.document [] []) 0)
    (Sample.declaration "" "Pod" [("namespace", cue.String_ "prod")])
    Sample.deployment Sample.fresh
  = (Err (UnsupportedSelector "namespace"), Sample.fresh).
Proof. reflexivity. Qed.

(** ** Declarations *)

Lemma fold_left_snoc_map {A B} (f : A -> B) (xs : list A) (acc : list B) :
  fold_left (fun acc x => acc ++ [f x]) xs acc = acc ++ map f xs.
Proof.
  revert acc. induction xs as [|x xs IH]; intros acc; simpl.
  - by rewrite app_nil_r.
  - rewrite IH. by rewrite <- app_assoc.
Qed.

Lemma decodeStrings_clean items names :
  cue.decodeStrings items = Success names -> cue.firstError (cue.List_ items) = None.
Proof.
  revert names. induction items as [|item items IH]; intros names Hdec; [done|].
  simpl in Hdec. destruct item; try discriminate.
  destruct (cue.decodeStrings items) as [l|e] eqn:Hrest; [|discriminate].
  exact (IH l eq_refl).
Qed.

Lemma DecodeStrings_list items names :
  cue.decodeStrings items = Success names ->
  cue.DecodeStrings (cue.List_ items) = Success names.
Proof.
  intros Hdec. unfold cue.DecodeStrings.
  by rewrite (decodeStrings_clean items names Hdec).
Qed.

Lemma Fields_Success_Exists (v : cue.Value) fields :
  cue.Fields v = Success fields -> v = cue.Struct fields.
Proof. destruct v; simpl; intros [=]. by subst. Qed.

Section Declarations.
Context (env : Env) (rec : cue.Value -> k8s.Resource -> M (list SubResource)).

(** C8, amended: when [name] is the only key of the selector, the
    evaluation gives one identity per literal name, in input order, with
    the declaration's group and kind and the context resource's
    namespace, and leaves the world as it was: no request is sent. *)
Theorem name_selector_alone v resource w base value names :
  cue.DecodeResource v = Success base ->
  cue.Fields (cue.LookupPath v selectorKey) = Success [(nameSelectorKey, value)] ->
  literalNames value = Some names ->
  getResourcesWithSelector env rec v resource w
  = (Ok (map (fun name =>
                k8s.mk (k8s.Group base) (k8s.Resource_ base) name (k8s.Namespace resource))
           names),
     w).
Proof.
  intros Hbase Hfields Hnames.
  apply Fields_Success_Exists in Hfields.
  unfold getResourcesWithSelector.
  rewrite (bind_Ok _ _ w base w (lift_Success _ _ _ Hbase)).
  rewrite Hfields. simpl.
  unfold bind at 1; simpl.
  destruct value; simpl in Hnames; try discriminate.
  - injection Hnames as <-. reflexivity.
  - destruct (cue.decodeStrings items) as [l|e] eqn:Hdec; [|discriminate].
    injection Hnames as <-.
    unfold cue.isStringKind; simpl. unfold bind, lift.
    rewrite (DecodeStrings_list _ _ Hdec); simpl.
    by rewrite fold_left_snoc_map.
Qed.

(** A selector with one key other than [builtin] and [name] gives the
    identities of the items [listResources] returns. *)
Lemma single_list_key v resource w base label value items w' :
  cue.DecodeResource v = Success base ->
  cue.Fields (cue.LookupPath v selectorKey) = Success [(label, value)] ->
  label ≠ builtinSelectorKey ->
  label ≠ nameSelectorKey ->
  listResources env (mkSelector (k8s.Group base) (k8s.Resource_ base) label value)
    resource w = (Ok items, w') ->
  getResourcesWithSelector env rec v resource w
  = (Ok (map (fun item =>
                k8s.mk (k8s.Group base) (k8s.Resource_ base)
                  (unstructured.GetName item) (unstructured.GetNamespace item))
           items),
     w').
Proof.
  intros Hbase Hfields Hbuiltin Hname Hlist.
  apply Fields_Success_Exists in Hfields.
  unfold getResourcesWithSelector.
  rewrite (bind_Ok _ _ w base w (lift_Success _ _ _ Hbase)).
  rewrite Hfields. simpl.
  unfold bind at 1; simpl.
  destruct (decide (label = builtinSelectorKey)) as [|_]; [done|].
  destruct (decide (label = nameSelectorKey)) as [|_]; [done|].
  rewrite (bind_Ok _ _ _ _ _ Hlist). simpl.
  by rewrite (fold_left_snoc_map
                (fun item =>
                   k8s.mk (k8s.Group base) (k8s.Resource_ base)
                     (unstructured.GetName item) (unstructured.GetNamespace item))).
Qed.

(** An [ownerReference: true] declaration gives the identity of every
    listed item once per owner reference that names the context
    resource. *)
Lemma ownerReference_declaration v resource w base gvk items :
  cue.DecodeResource v = Success base ->
  cue.Fields (cue.LookupPath v selectorKey)
    = Success [(ownerReferenceSelectorKey, cue.Bool_ true)] ->
  GetGVKFromResource env (k8s.mk (k8s.Group base) (k8s.Resource_ base) "" "")
    = Success gvk ->
  ListUnstructured env gvk [client.InNamespace (k8s.Namespace resource)] = Success items ->
  fst (getResourcesWithSelector env rec v resource w)
  = Ok (map (fun item =>
               k8s.mk (k8s.Group base) (k8s.Resource_ base)
                 (unstructured.GetName item) (unstructured.GetNamespace item))
          (items ≫= fun un => replicate (ownerMatches resource un) un)).
Proof.
  intros Hbase Hfields Hgvk Hlist.
  rewrite (single_list_key v resource w base ownerReferenceSelectorKey (cue.Bool_ true)
             (filterOwner resource items)
             (mkWorld (receiver w)
                (calls w
                 ++ [CallGVK (k8s.mk (k8s.Group base) (k8s.Resource_ base) "" "");
                     CallList gvk [client.InNamespace (k8s.Namespace resource)]]))
             Hbase Hfields); [|done|done|].
  - simpl. by rewrite filterOwner_replicate.
  - by rewrite (listResources_plan env _ resource w _ gvk items
                  (selectorPlan_ownerReference _ _ true resource w) Hgvk Hlist).
Qed.
End Declarations.

(** The list form on the sample cluster: two names, two identities. *)
Lemma name_selector_alone_witness :
  getResourcesWithSelector (Sample.store Sample.document [] [])
    (getSubResources (Sample.store Sample.document [] []) 0)
    (Sample.declaration "" "Service"
       [("name", cue.List_ [cue.String_ "a"; cue.String_ "b"])])
    Sample.deployment Sample.fresh
  = (Ok (map (fun name => k8s.mk "" "Service" name "ns") ["a"; "b"]), Sample.fresh).
Proof.
  apply (name_selector_alone (Sample.store Sample.document [] [])
           (getSubResources (Sample.store Sample.document [] []) 0)
           (Sample.declaration "" "Service"
              [("name", cue.List_ [cue.String_ "a"; cue.String_ "b"])])
           Sample.deployment Sample.fresh (k8s.mk "" "Service" "" "")
           (cue.List_ [cue.String_ "a"; cue.String_ "b"]) ["a"; "b"]); reflexivity.
Defined.

(** C8, as stated, fails when the selector has a second key: with
    [{name: "p0", annotations: {team: "a"}}] the loop goes on to the
    [annotations] key, lists the pods and appends [p1]. *)
Lemma name_with_second_key_lists :
  ~ nameKeyAloneDecides (Sample.store Sample.document [] [])
      (getSubResources (Sample.store Sample.document [] []) 0)
      (Sample.declaration "" "Pod"
         [("name", cue.String_ "p0");
          ("annotations", cue.Struct [("team", cue.String_ "a")])])
      Sample.deployment Sample.fresh.
Proof.
  intros Hall.
  specialize (Hall (k8s.mk "" "Pod" "" "")
                [("name", cue.String_ "p0");
                 ("annotations", cue.Struct [("team", cue.String_ "a")])]
                (cue.String_ "p0") ["p0"] eq_refl eq_refl eq_refl eq_refl).
  vm_compute in Hall. discriminate Hall.
Qed.

(** ** Trees *)

Lemma SubResource_nested_ind (P : SubResource -> Prop) :
  (forall r children, Forall P children -> P (mkSub r children)) ->
  forall sub, P sub.
Proof.
  intros step. fix IH 1. intros [r children]. apply step.
  induction children as [|c cs IHcs]; constructor; [apply IH | apply IHcs].
Qed.

Lemma filter_bind {A B} (P : B -> Prop) `{!forall x, Decision (P x)}
    (f : A -> list B) (l : list A) :
  filter P (l ≫= f) = l ≫= fun x => filter P (f x).
Proof.
  induction l as [|x l IH]; [done|].
  rewrite !bind_cons, filter_app. by rewrite IH.
Qed.

(** [getGroupResourceFromSubs] keeps the nodes of the tree with the given
    group and kind, root first. *)
Lemma getGroupResourceFromSubs_filter group kind sub :
  getGroupResourceFromSubs sub group kind
  = filter (fun r => k8s.Group r = group /\ k8s.Resource_ r = kind) (nodes sub).
Proof.
  induction sub as [r children IH] using SubResource_nested_ind.
  simpl. rewrite filter_cons. simpl.
  assert (forall acc,
            fold_left
              (fun result child => result ++ getGroupResourceFromSubs child group kind)
              children acc
            = acc ++ filter (fun r => k8s.Group r = group /\ k8s.Resource_ r = kind)
                       (children ≫= nodes)) as Hloop.
  { induction IH as [|c cs Hc _ IHcs]; intros acc.
    - simpl. by rewrite app_nil_r.
    - rewrite bind_cons, filter_app. cbn [fold_left].
      rewrite IHcs, Hc. by rewrite <- app_assoc. }
  rewrite Hloop. by destruct (decide _).
Qed.

Lemma podsLoop_podNodes (subs : list SubResource) :
  fold_left (fun pods sub => pods ++ getGroupResourceFromSubs sub "" "Pod") subs []
  = podNodes subs.
Proof.
  unfold podNodes.
  assert (forall acc,
            fold_left (fun pods sub => pods ++ getGroupResourceFromSubs sub "" "Pod") subs acc
            = acc ++ filter isPod (subs ≫= nodes)) as Hloop.
  { induction subs as [|sub subs IH]; intros acc.
    - simpl. by rewrite app_nil_r.
    - rewrite bind_cons, filter_app. cbn [fold_left].
      rewrite IH, getGroupResourceFromSubs_filter. by rewrite <- app_assoc. }
  by rewrite Hloop.
Qed.

Lemma Contains_elem_of (xs : list k8s.Resource) (x : k8s.Resource) :
  Contains xs x = bool_decide (x ∈ xs).
Proof.
  induction xs as [|y xs IH]; cbn [Contains].
  - symmetry. by apply bool_decide_eq_false_2, not_elem_of_nil.
  - destruct (decide (y = x)) as [->|Hxy].
    + symmetry. apply bool_decide_eq_true_2. left.
    + rewrite IH. apply bool_decide_ext. rewrite elem_of_cons.
      split; [by right|]. intros [Heq|Hin]; [by subst|done].
Qed.

(** ** The service heuristic *)

Section ServiceHeuristic.
Context (env : Env) (rec : cue.Value -> k8s.Resource -> M (list SubResource)).
Context (resource : k8s.Resource) (subs : list SubResource).

Lemma visit_emitted e service s w :
  is_Some (discoveryv1.TargetRef s) ->
  (matchesPod subs s -> discoveryv1.OwnerReferences e ≠ []) ->
  visit subs resource e service s w
  = (Ok (service ++ if decide (matchesPod subs s) then [serviceOf resource e] else []), w).
Proof.
  intros [t Ht] Howner. unfold visit. unfold bind at 1. rewrite Ht. simpl.
  rewrite Contains_elem_of. case_bool_decide as Hin.
  - assert (matchesPod subs s) as Hmatch by (by exists t).
    specialize (Howner Hmatch).
    destruct (decide (matchesPod subs s)) as [_|Hno]; [|done].
    unfold serviceOf, firstOwnerName, index, bind.
    by destruct (discoveryv1.OwnerReferences e) as [|first others].
  - destruct (decide (matchesPod subs s)) as [(t' & Ht' & Hin')|_].
    + rewrite Ht in Ht'. by injection Ht' as <-.
    + simpl. by rewrite app_nil_r.
Qed.

(** The loop over the endpoints of one slice. *)
Lemma endpointsLoop_emitted (e : discoveryv1.EndpointSlice)
    (endpoints : list discoveryv1.Endpoint) (service : list k8s.Resource) w :
  (forall s, s ∈ endpoints -> is_Some (discoveryv1.TargetRef s)) ->
  (forall s, s ∈ endpoints -> matchesPod subs s -> discoveryv1.OwnerReferences e ≠ []) ->
  forEach endpoints service (visit subs resource e) w
  = (Ok (service ++ ((fun _ => serviceOf resource e) <$> filter (matchesPod subs) endpoints)), w).
Proof.
  revert service. induction endpoints as [|s endpoints IH]; intros service Htarget Howner.
  - simpl. by rewrite app_nil_r.
  - cbn [forEach].
    rewrite (bind_Ok _ _ _ _ _
               (visit_emitted e service s w
                  (Htarget s (list_elem_of_here _ _))
                  (Howner s (list_elem_of_here _ _)))).
    rewrite IH.
    + rewrite filter_cons. destruct (decide (matchesPod subs s)); simpl.
      * by rewrite <- app_assoc.
      * by rewrite app_nil_r.
    + intros s' Hs'. apply Htarget. by right.
    + intros s' Hs'. apply Howner. by right.
Qed.

(** The loop over the slices. *)
Lemma slicesLoop_emitted (slices : list discoveryv1.EndpointSlice)
    (service : list k8s.Resource) w :
  (forall e s, e ∈ slices -> s ∈ discoveryv1.Endpoints e ->
               is_Some (discoveryv1.TargetRef s)) ->
  (forall e s, e ∈ slices -> s ∈ discoveryv1.Endpoints e -> matchesPod subs s ->
               discoveryv1.OwnerReferences e ≠ []) ->
  forEach slices service
    (fun service e => forEach (discoveryv1.Endpoints e) service (visit subs resource e)) w
  = (Ok (service ++ emitted subs resource slices), w).
Proof.
  revert service. induction slices as [|e slices IH]; intros service Htarget Howner.
  - simpl. by rewrite app_nil_r.
  - cbn [forEach].
    rewrite (bind_Ok _ _ _ _ _
               (endpointsLoop_emitted e (discoveryv1.Endpoints e) service w
                  (fun s => Htarget e s (list_elem_of_here _ _))
                  (fun s => Howner e s (list_elem_of_here _ _)))).
    rewrite IH.
    + unfold emitted. rewrite bind_cons. by rewrite <- app_assoc.
    + intros e' s He'. apply Htarget. by right.
    + intros e' s He'. apply Howner. by right.
Qed.

(** Where the two unguarded accesses are defined: when the expansion of
    the context resource gives the forest [subs], the endpoint slices of
    its namespace are listed, every endpoint has a target reference and
    every slice with a matching endpoint has an owner reference, the
    heuristic returns one identity per endpoint whose target reference
    is a Pod-kind node of the forest, in slice and endpoint order:
    empty group, kind Service, the name of the slice's first owner
    reference, the context resource's namespace.  Nothing is removed
    when several endpoints match. *)
Theorem service_heuristic_emits_per_endpoint v w w1 slices :
  rec v resource w = (Ok subs, w1) ->
  ListEndpointSlices env [client.InNamespace (k8s.Namespace resource)] = Success slices ->
  Forall (fun e =>
            Forall (fun s => is_Some (discoveryv1.TargetRef s)) (discoveryv1.Endpoints e))
    slices ->
  Forall (fun e =>
            Forall (fun s => matchesPod subs s -> discoveryv1.OwnerReferences e ≠ [])
              (discoveryv1.Endpoints e))
    slices ->
  handleBuiltInRulesForService env rec v resource w
  = (Ok (emitted subs resource slices),
     mkWorld (receiver w1)
       (calls w1 ++ [CallListEndpointSlices [client.InNamespace (k8s.Namespace resource)]])).
Proof.
  intros Hrec Hlist Htarget Howner.
  assert (forall e s, e ∈ slices -> s ∈ discoveryv1.Endpoints e ->
                      is_Some (discoveryv1.TargetRef s)) as Htarget'.
  { intros e s He Hs. rewrite Forall_forall in Htarget.
    specialize (Htarget e He). rewrite Forall_forall in Htarget. by apply Htarget. }
  assert (forall e s, e ∈ slices -> s ∈ discoveryv1.Endpoints e -> matchesPod subs s ->
                      discoveryv1.OwnerReferences e ≠ []) as Howner'.
  { intros e s He Hs. rewrite Forall_forall in Howner.
    specialize (Howner e He). rewrite Forall_forall in Howner. by apply Howner. }
  unfold handleBuiltInRulesForService.
  rewrite (bind_Ok _ _ _ _ _ Hrec).
  rewrite podsLoop_podNodes.
  unfold bind at 1. simpl. unfold bind at 1. rewrite Hlist. simpl.
  exact (slicesLoop_emitted slices [] _ Htarget' Howner').
Qed.
End ServiceHeuristic.

(** The heuristic on the sample cluster, from the zero receiver: the
    deployment's tree holds the pods [p1] and [p2]; one endpoint of the
    slice targets [p1], so the slice's owner [svc-a] comes out once. *)
Lemma service_heuristic_emits_per_endpoint_witness :
  handleBuiltInRulesForService
    (Sample.store Sample.document [Sample.replicaSet] Sample.slices)
    (getSubResources (Sample.store Sample.document [Sample.replicaSet] Sample.slices) 3)
    Sample.document Sample.deployment Sample.zero
  = (Ok [k8s.mk "" "Service" "svc-a" "ns"],
     mkWorld (receiver Sample.expanded)
       (calls Sample.expanded ++ [CallListEndpointSlices [client.InNamespace "ns"]])).
Proof.
  apply (service_heuristic_emits_per_endpoint
           (Sample.store Sample.document [Sample.replicaSet] Sample.slices)
           (getSubResources (Sample.store Sample.document [Sample.replicaSet] Sample.slices) 3)
           Sample.deployment Sample.tree Sample.document Sample.zero Sample.expanded
           Sample.slices).
  - reflexivity.
  - reflexivity.
  - repeat constructor; by eexists.
  - repeat constructor; by intros _.
Defined.

(** Every identity given out is a Service in the context resource's
    namespace, and there are as many as matching endpoints. *)
Lemma emitted_shape subs resource slices r :
  r ∈ emitted subs resource slices ->
  k8s.Group r = "" /\ k8s.Resource_ r = "Service"
  /\ k8s.Namespace r = k8s.Namespace resource.
Proof.
  unfold emitted. rewrite list_elem_of_bind.
  intros (e & Hr & _). apply list_elem_of_fmap in Hr as (s & -> & _). done.
Qed.

Lemma emitted_length subs resource slices :
  length (emitted subs resource slices)
  = sum_list ((fun e => length (filter (matchesPod subs) (discoveryv1.Endpoints e)))
                <$> slices).
Proof.
  unfold emitted. induction slices as [|e slices IH]; [done|].
  rewrite bind_cons, length_app, length_fmap, fmap_cons. simpl. by rewrite IH.
Qed.

(** Two endpoints of one slice that target pods of the tree give the
    owner of the slice twice. *)
Lemma service_emitted_per_endpoint :
  fst (handleBuiltInRulesForService
         (Sample.store Sample.document [Sample.replicaSet]
            [discoveryv1.mkSlice "svc-a-x" Sample.ownedBySvcA
               [Sample.toPod "p1"; Sample.toPod "p2"]])
         (getSubResources
            (Sample.store Sample.document [Sample.replicaSet]
               [discoveryv1.mkSlice "svc-a-x" Sample.ownedBySvcA
                  [Sample.toPod "p1"; Sample.toPod "p2"]]) 3)
         Sample.document Sample.deployment Sample.zero)
  = Ok [k8s.mk "" "Service" "svc-a" "ns"; k8s.mk "" "Service" "svc-a" "ns"].
Proof. reflexivity. Qed.

(** C6: a slice owned by [svc-a] with two endpoints, the first targeting
    the pod [p1] of the deployment's tree and the second without a target
    reference.  One identity is due, Service [svc-a], for the first
    endpoint; the heuristic reads the target reference of the second
    through a nil pointer and ends in a panic, so that nothing is
    returned, directly and through [GetPeerResources]. *)
Theorem service_heuristic_loses_matches_to_panic :
  fst (getSubResources
         (Sample.store Sample.document [Sample.replicaSet] Cases.halfTargeted) 3
         Sample.document Sample.deployment Sample.zero)
  = Ok Sample.tree
  /\ emitted Sample.tree Sample.deployment Cases.halfTargeted
     = [k8s.mk "" "Service" "svc-a" "ns"]
  /\ fst (handleBuiltInRulesForService
            (Sample.store Sample.document [Sample.replicaSet] Cases.halfTargeted)
            (getSubResources
               (Sample.store Sample.document [Sample.replicaSet] Cases.halfTargeted) 3)
            Sample.document Sample.deployment Sample.zero)
     = Panic NilDereference
  /\ fst (GetPeerResources
            (Sample.store Sample.document [Sample.replicaSet] Cases.halfTargeted) 4
            Sample.deployment Sample.zero)
     = Panic NilDereference.
Proof. repeat split; reflexivity. Qed.

(** C10: the two unguarded accesses of the service heuristic.  An
    endpoint without a target reference stops the traversal with a nil
    dereference, whatever the candidates are; a slice without owner
    references that holds a matching endpoint stops it with an index out
    of range.  The same happens through [GetPeerResources]. *)
Theorem service_heuristic_unguarded_accesses :
  fst (handleBuiltInRulesForService
         (Sample.store Sample.document [Sample.replicaSet] Sample.untargeted)
         (getSubResources
            (Sample.store Sample.document [Sample.replicaSet] Sample.untargeted) 3)
         Sample.document Sample.deployment Sample.zero)
  = Panic NilDereference
  /\ fst (handleBuiltInRulesForService
            (Sample.store Sample.document [Sample.replicaSet] Sample.unowned)
            (getSubResources
               (Sample.store Sample.document [Sample.replicaSet] Sample.unowned) 3)
            Sample.document Sample.deployment Sample.zero)
     = Panic (IndexOutOfRange 0 0)
  /\ fst (GetPeerResources
            (Sample.store Sample.document [Sample.replicaSet] Sample.untargeted) 4
            Sample.deployment Sample.zero)
     = Panic NilDereference.
Proof. repeat split; reflexivity. Qed.

(** An endpoint without a target reference is fatal even when no pod is
    a candidate. *)
Lemma untargeted_endpoint_panics env rec v resource w w1 subs e slices s endpoints :
  rec v resource w = (Ok subs, w1) ->
  ListEndpointSlices env [client.InNamespace (k8s.Namespace resource)]
    = Success (e :: slices) ->
  discoveryv1.Endpoints e = s :: endpoints ->
  discoveryv1.TargetRef s = None ->
  fst (handleBuiltInRulesForService env rec v resource w) = Panic NilDereference.
Proof.
  intros Hrec Hlist Hendpoints Hnil. unfold handleBuiltInRulesForService.
  rewrite (bind_Ok _ _ _ _ _ Hrec).
  unfold bind at 1. simpl. unfold bind at 1. rewrite Hlist. simpl.
  unfold bind at 1. rewrite Hendpoints. simpl.
  unfold bind at 1. unfold bind at 1. by rewrite Hnil.
Qed.

(** ** The rule index *)

(** Once the receiver holds an index, a lookup is answered from it and
    the document is not read. *)
Lemma lookup_ignores_document v resource w index :
  rules (receiver w) = Some index ->
  getRuleForResource v resource w
  = (match index !! ruleKey (k8s.Group resource) (k8s.Resource_ resource) with
     | Some rule => Ok rule
     | None => Err (RuleNotFound (k8s.Group resource) (k8s.Resource_ resource))
     end, w).
Proof.
  intros Hindex. unfold getRuleForResource, bind, getRules. rewrite Hindex. simpl.
  rewrite Hindex. simpl. by destruct (index !! _).
Qed.

Lemma empty_index_finds_nothing template v resource requests :
  getRuleForResource v resource (mkWorld (New template) requests)
  = (Err (RuleNotFound (k8s.Group resource) (k8s.Resource_ resource)),
     mkWorld (New template) requests).
Proof.
  rewrite (lookup_ignores_document v resource _ ∅) by done.
  by rewrite lookup_empty.
Qed.

(** C1: a receiver made by [New] holds an empty, non-nil index, so the
    branch that builds the index from the document is never taken: every
    lookup, against every document, is answered "no rule found" and the
    index stays empty. *)
Theorem New_index_never_built template v resource requests :
  getRuleForResource v resource (mkWorld (New template) requests)
  = (Err (RuleNotFound (k8s.Group resource) (k8s.Resource_ resource)),
     mkWorld (New template) requests).
Proof. apply empty_index_finds_nothing. Qed.

(** With the sample document, which has a rule for deployments, both
    public methods behave as if there were none. *)
Lemma New_finds_no_rule :
  fst (GetSubResources (Sample.store Sample.document [Sample.replicaSet] Sample.slices) 3
         Sample.deployment Sample.fresh) = Ok []
  /\ fst (GetPeerResources (Sample.store Sample.document [Sample.replicaSet] Sample.slices) 3
            Sample.deployment Sample.fresh) = Err (RuleNotFound "apps" "Deployment").
Proof. split; reflexivity. Qed.

(** From the zero receiver the index is built by the first call and kept
    in the receiver: a second call, whose rendered document has no rules,
    is still answered from the rules of the first. *)
Lemma index_outlives_call :
  let first :=
    GetSubResources (Sample.store Sample.document [Sample.replicaSet] Sample.slices) 3
      Sample.deployment Sample.zero in
  let second :=
    GetSubResources (Sample.store Sample.noRules [Sample.replicaSet] Sample.slices) 3
      Sample.deployment (snd first) in
  fst first = Ok Sample.tree /\ fst second = Ok Sample.tree.
Proof. split; reflexivity. Qed.

Section PublicMethods.
Context (env : Env).

Lemma render_Success resource w un v :
  GetUnstructuredFromResource env resource = Success un ->
  CompileStringWithOptions env (ruleTemplate (receiver w)) un = Success v ->
  render env resource w = (Ok v, mkWorld (receiver w) (calls w ++ [CallGet resource])).
Proof.
  intros Hget Hcompile. unfold render, bind, record, lift, getRuleTemplate. simpl.
  rewrite Hget. simpl. by rewrite Hcompile.
Qed.

(** On a receiver made by [New], [GetSubResources] gives the empty
    result for every rendered document, also one that carries an
    evaluation error. *)
Lemma GetSubResources_New fuel resource template requests un v :
  GetUnstructuredFromResource env resource = Success un ->
  CompileStringWithOptions env template un = Success v ->
  GetSubResources env (S fuel) resource (mkWorld (New template) requests)
  = (Ok [], mkWorld (New template) (requests ++ [CallGet resource])).
Proof.
  intros Hget Hcompile. unfold GetSubResources.
  rewrite (bind_Ok _ _ _ _ _
             (render_Success resource (mkWorld (New template) requests) un v Hget Hcompile)).
  simpl. unfold getSubResources_body, bind, attempt.
  by rewrite empty_index_finds_nothing.
Qed.

(** On a receiver made by [New], [GetPeerResources] fails with "no rule
    found" for every rendered document that carries no error, with or
    without a rules section. *)
Lemma GetPeerResources_New fuel resource template requests un v :
  GetUnstructuredFromResource env resource = Success un ->
  CompileStringWithOptions env template un = Success v ->
  cue.Err v = None ->
  GetPeerResources env fuel resource (mkWorld (New template) requests)
  = (Err (RuleNotFound (k8s.Group resource) (k8s.Resource_ resource)),
     mkWorld (New template) (requests ++ [CallGet resource])).
Proof.
  intros Hget Hcompile Hsound. unfold GetPeerResources.
  rewrite (bind_Ok _ _ _ _ _
             (render_Success resource (mkWorld (New template) requests) un v Hget Hcompile)).
  rewrite Hsound. simpl. unfold bind.
  by rewrite empty_index_finds_nothing.
Qed.

(** A document that carries an evaluation error stops
    [GetPeerResources], whatever the receiver. *)
Lemma GetPeerResources_render_error fuel resource w un v e :
  GetUnstructuredFromResource env resource = Success un ->
  CompileStringWithOptions env (ruleTemplate (receiver w)) un = Success v ->
  cue.Err v = Some e ->
  GetPeerResources env fuel resource w
  = (Err e, mkWorld (receiver w) (calls w ++ [CallGet resource])).
Proof.
  intros Hget Hcompile Hbroken. unfold GetPeerResources.
  rewrite (bind_Ok _ _ _ _ _ (render_Success resource w un v Hget Hcompile)).
  by rewrite Hbroken.
Qed.
End PublicMethods.

(** C2: with a rendered document that has no rules section at all, on a
    receiver made by [New], [GetSubResources] gives the empty result and
    [GetPeerResources] fails, but with "no rule found for resource", not
    with "no rules found": the branch that reports a missing rules
    section is the one that builds the index. *)
Theorem missing_rules_section_reported_as_missing_rule :
  cue.Exists (cue.LookupPath Sample.noRules rulesKey) = false
  /\ fst (GetSubResources (Sample.store Sample.noRules [] []) 1
            Sample.deployment Sample.fresh) = Ok []
  /\ fst (GetPeerResources (Sample.store Sample.noRules [] []) 1
            Sample.deployment Sample.fresh) = Err (RuleNotFound "apps" "Deployment").
Proof. repeat split; reflexivity. Qed.

(** From the zero receiver the missing rules section is reported by the
    first call only: that call leaves an empty index behind, and the next
    one reports a missing rule. *)
Lemma zero_receiver_reports_missing_rules_once :
  let first :=
    GetPeerResources (Sample.store Sample.noRules [] []) 1 Sample.deployment Sample.zero in
  let second :=
    GetPeerResources (Sample.store Sample.noRules [] []) 1 Sample.deployment (snd first) in
  fst first = Err RulesNotFound
  /\ rules (receiver (snd first)) = Some ∅
  /\ fst second = Err (RuleNotFound "apps" "Deployment").
Proof. repeat split; reflexivity. Qed.

(** C5: with a rendered document that is an evaluation error,
    [GetPeerResources] fails with that error, but [GetSubResources] goes
    on to the rule lookup and returns the empty result without an error,
    from a receiver made by [New] and from the zero receiver alike. *)
Theorem GetSubResources_ignores_document_error :
  cue.Err Sample.broken = Some (RenderError "conflicting values")
  /\ fst (GetPeerResources (Sample.store Sample.broken [] []) 1
            Sample.deployment Sample.fresh) = Err (RenderError "conflicting values")
  /\ fst (GetSubResources (Sample.store Sample.broken [] []) 1
            Sample.deployment Sample.fresh) = Ok []
  /\ fst (GetSubResources (Sample.store Sample.broken [] []) 1
            Sample.deployment Sample.zero) = Ok [].
Proof. repeat split; reflexivity. Qed.

(** * Further properties *)

(** ** More on the monad *)

Lemma bind_assoc {A B C} (m : M A) (k : A -> M B) (k' : B -> M C) w :
  bind (bind m k) k' w = bind m (fun a => bind (k a) k') w.
Proof. unfold bind. destruct (m w) as [[a|e|p|] w']; reflexivity. Qed.

Lemma bind_ext {A B} (m : M A) (k k' : A -> M B) w :
  (forall a w', k a w' = k' a w') -> bind m k w = bind m k' w.
Proof. intros Hk. unfold bind. destruct (m w) as [[a|e|p|] w']; auto. Qed.

Lemma bind_ext_l {A B} (m m' : M A) (k : A -> M B) w :
  (forall w', m w' = m' w') -> bind m k w = bind m' k w.
Proof. intros Hm. unfold bind. by rewrite Hm. Qed.

Lemma bind_Diverge {A B} (m : M A) (k : A -> M B) w w' :
  m w = (Diverge, w') -> bind m k w = (Diverge, w').
Proof. intros H. unfold bind. by rewrite H. Qed.

Lemma forEach_app {A S} (xs ys : list A) (acc : S) (body : S -> A -> M S) w :
  forEach (xs ++ ys) acc body w
  = bind (forEach xs acc body) (fun acc' => forEach ys acc' body) w.
Proof.
  revert acc w. induction xs as [|x xs IH]; intros acc w; simpl.
  - reflexivity.
  - rewrite bind_assoc. apply bind_ext. intros acc' w'. apply IH.
Qed.

(** ** Building the rule index *)

Lemma withIndex_withIndex w index index' :
  withIndex (withIndex w index) index' = withIndex w index'.
Proof. reflexivity. Qed.

Lemma withIndex_rules w index : rules (receiver (withIndex w index)) = Some index.
Proof. reflexivity. Qed.

Lemma withIndex_same w index : rules (receiver w) = Some index -> withIndex w index = w.
Proof. destruct w as [[template r] requests]. simpl. by intros ->. Qed.

Lemma ruleAmong_cons entry entries key :
  ruleAmong (entry :: entries) key
  = match ruleAmong entries key with
    | Some rule => Some rule
    | None => if decide (entryKey entry = Some key) then Some entry else None
    end.
Proof.
  unfold ruleAmong. rewrite filter_cons.
  destruct (decide (entryKey entry = Some key)); [rewrite last_cons|];
    by destruct (last _).
Qed.

Lemma indexRule_stores entry key w index :
  rules (receiver w) = Some index ->
  entryKey entry = Some key ->
  indexRule entry w = (Ok tt, withIndex w (<[key := entry]> index)).
Proof.
  intros Hindex Hkey. unfold entryKey in Hkey. unfold indexRule.
  destruct (cue.DecodeResource entry) as [re|e]; [|done]. injection Hkey as <-.
  unfold bind, lift, ret, getRules, setRules, withIndex. simpl. rewrite Hindex. reflexivity.
Qed.

Lemma indexRule_fails entry e w :
  cue.DecodeResource entry = Failure e -> indexRule entry w = (Err e, w).
Proof. intros He. unfold indexRule, bind, lift. by rewrite He. Qed.

(** The loop over the entries, started on an index: every key holds the
    last entry stored under it, or what it held before. *)
Lemma indexLoop_builds entries w index :
  rules (receiver w) = Some index ->
  Forall (fun entry => is_Some (entryKey entry)) entries ->
  exists index',
    forEach entries tt (fun _ entry => indexRule entry) w = (Ok tt, withIndex w index')
    /\ forall key,
         index' !! key
         = match ruleAmong entries key with
           | Some rule => Some rule
           | None => index !! key
           end.
Proof.
  intros Hindex Hall. revert w index Hindex.
  induction Hall as [|entry entries [key Hkey] _ IH]; intros w index Hindex.
  - exists index. split; [simpl; by rewrite withIndex_same|done].
  - destruct (IH (withIndex w (<[key := entry]> index)) (<[key := entry]> index))
      as (index' & Hrun & Hlookup); [done|].
    exists index'. split.
    + cbn [forEach]. rewrite (bind_Ok _ _ _ _ _ (indexRule_stores entry key w index Hindex Hkey)).
      by rewrite Hrun.
    + intros key'. rewrite Hlookup, ruleAmong_cons.
      destruct (ruleAmong entries key'); [done|].
      destruct (decide (entryKey entry = Some key')) as [Heq|Hne].
      * rewrite Hkey in Heq. injection Heq as ->. by rewrite lookup_insert_eq.
      * rewrite lookup_insert_ne; [done|]. intros ->. by rewrite Hkey in Hne.
Qed.

(** What the receiver's first lookup does up to the loop over the
    entries. *)
Lemma List_Success (x : cue.Value) items :
  cue.List x = Success items -> x = cue.List_ items /\ cue.firstError x = None.
Proof.
  destruct x as [| | | | |items'|]; unfold cue.List; try (by intros [=]).
  destruct (cue.firstError (cue.List_ items')) eqn:Hclean; [by intros [=]|].
  by intros [= ->].
Qed.

Lemma List_Success_Exists (x : cue.Value) items :
  cue.List x = Success items -> cue.Exists x = true.
Proof. intros Hlist. by destruct (List_Success x items Hlist) as [-> _]. Qed.

Lemma first_lookup_unfolds v resource w entries :
  rules (receiver w) = None ->
  cue.List (cue.LookupPath v rulesKey) = Success entries ->
  getRuleForResource v resource w
  = bind (forEach entries tt (fun _ entry => indexRule entry))
      (fun _ =>
         do m <- getRules;
         match default ∅ m !! ruleKey (k8s.Group resource) (k8s.Resource_ resource) with
         | Some rule => ret rule
         | None => throw (RuleNotFound (k8s.Group resource) (k8s.Resource_ resource))
         end)
      (withIndex w ∅).
Proof.
  intros Hnil Hrules. unfold getRuleForResource.
  unfold bind at 1. unfold bind at 1. unfold getRules at 1. rewrite Hnil.
  unfold bind at 1. simpl. rewrite (List_Success_Exists _ _ Hrules), Hrules. simpl.
  unfold bind at 3. reflexivity.
Qed.

Lemma lookup_in_index w index resource :
  rules (receiver w) = Some index ->
  (do m <- getRules;
   match default ∅ m !! ruleKey (k8s.Group resource) (k8s.Resource_ resource) with
   | Some rule => ret rule
   | None => throw (RuleNotFound (k8s.Group resource) (k8s.Resource_ resource))
   end) w
  = (match index !! ruleKey (k8s.Group resource) (k8s.Resource_ resource) with
     | Some rule => Ok rule
     | None => Err (RuleNotFound (k8s.Group resource) (k8s.Resource_ resource))
     end, w).
Proof.
  intros Hindex. unfold bind, getRules. rewrite Hindex. simpl. by destruct (index !! _).
Qed.

(** X1: the first lookup on a receiver whose index is nil, against a
    document whose rules can be listed and whose entries all decode, stores
    every entry under its group/kind key and answers with the last entry
    stored under the resource's key, or with "no rule found" when there is
    none.  The index it leaves behind holds exactly that for every key. *)
Theorem first_lookup_builds_index v resource w entries :
  rules (receiver w) = None ->
  cue.List (cue.LookupPath v rulesKey) = Success entries ->
  Forall (fun entry => is_Some (entryKey entry)) entries ->
  exists index,
    getRuleForResource v resource w
    = (match ruleAmong entries (ruleKey (k8s.Group resource) (k8s.Resource_ resource)) with
       | Some rule => Ok rule
       | None => Err (RuleNotFound (k8s.Group resource) (k8s.Resource_ resource))
       end,
       withIndex w index)
    /\ forall key, index !! key = ruleAmong entries key.
Proof.
  intros Hnil Hrules Hall.
  destruct (indexLoop_builds entries (withIndex w ∅) ∅ eq_refl Hall)
    as (index & Hrun & Hlookup).
  exists index. split.
  - rewrite (first_lookup_unfolds v resource w entries Hnil Hrules).
    rewrite (bind_Ok _ _ _ _ _ Hrun). rewrite withIndex_withIndex.
    rewrite (lookup_in_index (withIndex w index) index resource eq_refl).
    rewrite Hlookup. by destruct (ruleAmong entries _).
  - intros key. rewrite Hlookup. by destruct (ruleAmong entries key).
Qed.

(** X2: when the rules can be listed but an entry does not decode (it is
    no struct, or a field of the identity is no string), the first lookup
    fails with the decode error, but the entries before it are already
    stored: the receiver keeps an index of those entries only. *)
Theorem failed_build_keeps_partial_index v resource w good bad rest e :
  rules (receiver w) = None ->
  cue.List (cue.LookupPath v rulesKey) = Success (good ++ bad :: rest) ->
  Forall (fun entry => is_Some (entryKey entry)) good ->
  cue.DecodeResource bad = Failure e ->
  exists index,
    getRuleForResource v resource w = (Err e, withIndex w index)
    /\ (forall key, index !! key = ruleAmong good key)
    /\ forall v' resource',
         getRuleForResource v' resource' (withIndex w index)
         = (match ruleAmong good (ruleKey (k8s.Group resource') (k8s.Resource_ resource')) with
            | Some rule => Ok rule
            | None => Err (RuleNotFound (k8s.Group resource') (k8s.Resource_ resource'))
            end,
            withIndex w index).
Proof.
  intros Hnil Hrules Hgood Hbad.
  destruct (indexLoop_builds good (withIndex w ∅) ∅ eq_refl Hgood)
    as (index & Hrun & Hlookup).
  assert (forall key, index !! key = ruleAmong good key) as Hindex.
  { intros key. rewrite Hlookup. by destruct (ruleAmong good key). }
  exists index. split; [|split; [done|]].
  - rewrite (first_lookup_unfolds v resource w _ Hnil Hrules).
    unfold bind at 1. rewrite forEach_app.
    rewrite (bind_Ok _ _ _ _ _ Hrun). rewrite withIndex_withIndex.
    cbn [forEach]. by rewrite (bind_Err _ _ _ _ _ (indexRule_fails bad e _ Hbad)).
  - intros v' resource'.
    rewrite (lookup_ignores_document v' resource' (withIndex w index) index eq_refl).
    by rewrite Hindex.
Qed.

(** X3: when the rules of the document are not a list, the first lookup
    fails ("no rules found" when the section is absent, "rules should be a
    list" when it is there) and leaves an empty, non-nil index behind;
    from then on every lookup on the receiver, against any document, fails
    with "no rule found". *)
Theorem failed_build_leaves_empty_index v resource w e :
  rules (receiver w) = None ->
  cue.List (cue.LookupPath v rulesKey) = Failure e ->
  getRuleForResource v resource w
  = (Err (if cue.Exists (cue.LookupPath v rulesKey)
          then Wrap e "rules should be a list" else RulesNotFound),
     withIndex w ∅)
  /\ forall v' resource',
       getRuleForResource v' resource' (withIndex w ∅)
       = (Err (RuleNotFound (k8s.Group resource') (k8s.Resource_ resource')),
          withIndex w ∅).
Proof.
  intros Hnil Hlist. split.
  - unfold getRuleForResource.
    unfold bind at 1. unfold bind at 1. unfold getRules at 1. rewrite Hnil.
    unfold bind at 1. simpl.
    destruct (cue.Exists _); simpl; [by rewrite Hlist|done].
  - intros v' resource'.
    rewrite (lookup_ignores_document v' resource' (withIndex w ∅) ∅ eq_refl).
    by rewrite lookup_empty.
Qed.

(** ** Invariants kept by the engine *)

Section Keeps.
Context (P : World -> Prop).

Lemma keeps_ret {A} (a : A) : keeps P (ret a).
Proof. by intros w. Qed.

Lemma keeps_throw {A} e : keeps P (throw (A := A) e).
Proof. by intros w. Qed.

Lemma keeps_crash {A} p : keeps P (crash (A := A) p).
Proof. by intros w. Qed.

Lemma keeps_diverge {A} : keeps P (diverge (A := A)).
Proof. by intros w. Qed.

Lemma keeps_lift {A} (r : result A) : keeps P (lift r).
Proof. destruct r; by intros w. Qed.

Lemma keeps_bind {A B} (m : M A) (k : A -> M B) :
  keeps P m -> (forall a, keeps P (k a)) -> keeps P (bind m k).
Proof.
  intros Hm Hk w Hw. specialize (Hm w Hw). unfold bind.
  destruct (m w) as [[a|e|p|] w']; simpl in *; try done. by apply Hk.
Qed.

Lemma keeps_attempt {A} (m : M A) : keeps P m -> keeps P (attempt m).
Proof.
  intros Hm w Hw. specialize (Hm w Hw). unfold attempt.
  by destruct (m w) as [[a|e|p|] w'].
Qed.

Lemma keeps_forEach {A S} (xs : list A) (acc : S) (body : S -> A -> M S) :
  (forall acc x, keeps P (body acc x)) -> keeps P (forEach xs acc body).
Proof.
  intros Hbody. revert acc. induction xs as [|x xs IH]; intros acc; simpl.
  - apply keeps_ret.
  - apply keeps_bind; [apply Hbody | intros acc'; apply IH].
Qed.

Lemma keeps_deref {A} (p : option A) : keeps P (deref p).
Proof. destruct p; by intros w. Qed.

Lemma keeps_index {A} (xs : list A) i : keeps P (index xs i).
Proof. unfold index. destruct (xs !! i); by intros w. Qed.

Lemma keeps_getRuleTemplate : keeps P getRuleTemplate.
Proof. by intros w. Qed.

Lemma keeps_getRules : keeps P getRules.
Proof. by intros w. Qed.

(** What is kept by a request being logged and by a rule lookup is kept
    by the whole engine. *)
Section Engine.
Context (env : Env).
Hypothesis keeps_record : forall c, keeps P (record c).
Hypothesis keeps_lookup : forall v resource, keeps P (getRuleForResource v resource).

Lemma keeps_selectorPlan selector relation : keeps P (selectorPlan selector relation).
Proof.
  unfold selectorPlan. repeat case_decide.
  - destruct (cue.String _); apply keeps_ret.
  - destruct (cue.DecodeStringMap _); apply keeps_ret.
  - destruct (cue.DecodeStringMap _); apply keeps_ret.
  - destruct (cue.Bool _); apply keeps_ret.
  - apply keeps_throw.
Qed.

Lemma keeps_listResources selector relation :
  keeps P (listResources env selector relation).
Proof.
  unfold listResources.
  apply keeps_bind; [apply keeps_selectorPlan|]. intros plan.
  apply keeps_bind; [apply keeps_record|]. intros _.
  apply keeps_bind; [apply keeps_lift|]. intros gvk.
  apply keeps_bind; [apply keeps_record|]. intros _.
  apply keeps_bind; [apply keeps_lift|]. intros items.
  destruct (0 <? mapLen (annos plan))%nat; [apply keeps_ret|].
  destruct (owner plan); apply keeps_ret.
Qed.

Section Knot.
Context (rec : cue.Value -> k8s.Resource -> M (list SubResource)).
Hypothesis keeps_rec : forall v resource, keeps P (rec v resource).

Lemma keeps_handleBuiltInRulesForService v resource :
  keeps P (handleBuiltInRulesForService env rec v resource).
Proof.
  unfold handleBuiltInRulesForService.
  apply keeps_bind; [apply keeps_rec|]. intros subs.
  apply keeps_bind; [apply keeps_record|]. intros _.
  apply keeps_bind; [apply keeps_lift|]. intros es.
  apply keeps_forEach. intros service e.
  apply keeps_forEach. intros service' s.
  apply keeps_bind; [apply keeps_deref|]. intros target.
  destruct (Contains _ _); [|apply keeps_ret].
  apply keeps_bind; [apply keeps_index|]. intros first. apply keeps_ret.
Qed.

Lemma keeps_handleBuiltInRules typ v resource :
  keeps P (handleBuiltInRules env rec typ v resource).
Proof.
  unfold handleBuiltInRules. case_decide.
  - apply keeps_handleBuiltInRulesForService.
  - apply keeps_throw.
Qed.

Lemma keeps_selectorFields v base resource fields resources :
  keeps P (selectorFields env rec v base resource fields resources).
Proof.
  revert resources. induction fields as [|[label value] fields IH]; intros resources.
  - apply keeps_ret.
  - cbn [selectorFields]. repeat case_decide.
    + apply keeps_bind; [apply keeps_lift|]. intros typ. apply keeps_handleBuiltInRules.
    + destruct (cue.isStringKind value).
      * apply keeps_bind; [apply keeps_lift|]. intros name. apply IH.
      * apply keeps_bind; [apply keeps_lift|]. intros names. apply IH.
    + apply keeps_bind; [apply keeps_listResources|]. intros items. apply IH.
Qed.

Lemma keeps_getResourcesWithSelector v resource :
  keeps P (getResourcesWithSelector env rec v resource).
Proof.
  unfold getResourcesWithSelector.
  apply keeps_bind; [apply keeps_lift|]. intros base.
  destruct (negb _); [apply keeps_throw|].
  apply keeps_bind; [apply keeps_lift|]. intros fields. apply keeps_selectorFields.
Qed.

Lemma keeps_getSubResources_body v resource :
  keeps P (getSubResources_body env rec v resource).
Proof.
  unfold getSubResources_body.
  apply keeps_bind; [apply keeps_attempt, keeps_lookup|]. intros [rule|e]; [|apply keeps_ret].
  destruct (negb _); [apply keeps_ret|].
  destruct (cue.List _) as [decls|e]; [|apply keeps_throw].
  apply keeps_forEach. intros subResources decl.
  apply keeps_bind; [apply keeps_getResourcesWithSelector|]. intros items.
  apply keeps_forEach. intros subResources' item.
  apply keeps_bind; [apply keeps_rec|]. intros children. apply keeps_ret.
Qed.
End Knot.

Lemma keeps_getSubResources fuel v resource :
  keeps P (getSubResources env fuel v resource).
Proof.
  revert v resource. induction fuel as [|fuel IH]; intros v resource.
  - apply keeps_diverge.
  - simpl. by apply keeps_getSubResources_body.
Qed.

Lemma keeps_getPeerResources fuel rule resource :
  keeps P (getPeerResources env fuel rule resource).
Proof.
  unfold getPeerResources.
  destruct (negb _); [apply keeps_ret|].
  destruct (cue.List _) as [decls|e]; [|apply keeps_throw].
  apply keeps_forEach. intros peerResources decl.
  apply keeps_bind; [|intros items; apply keeps_ret].
  apply keeps_getResourcesWithSelector. apply keeps_getSubResources.
Qed.

Lemma keeps_render resource : keeps P (render env resource).
Proof.
  unfold render.
  apply keeps_bind; [apply keeps_record|]. intros _.
  apply keeps_bind; [apply keeps_lift|]. intros un.
  apply keeps_bind; [apply keeps_getRuleTemplate|]. intros template. apply keeps_lift.
Qed.

Lemma keeps_GetSubResources fuel resource :
  keeps P (GetSubResources env fuel resource).
Proof.
  unfold GetSubResources.
  apply keeps_bind; [apply keeps_render|]. intros v. apply keeps_getSubResources.
Qed.

Lemma keeps_GetPeerResources fuel resource :
  keeps P (GetPeerResources env fuel resource).
Proof.
  unfold GetPeerResources.
  apply keeps_bind; [apply keeps_render|]. intros v.
  destruct (cue.Err v); [apply keeps_throw|].
  apply keeps_bind; [apply keeps_lookup|]. intros rule. apply keeps_getPeerResources.
Qed.
End Engine.
End Keeps.

Lemma record_keeps_receiver c w : receiver (snd (record c w)) = receiver w.
Proof. reflexivity. Qed.

(** X4: once the receiver holds an index, no public call changes the
    receiver: the index is neither rebuilt for a new document nor
    extended, however the call ends. *)
Theorem built_index_is_frozen env fuel resource w index :
  rules (receiver w) = Some index ->
  receiver (snd (GetSubResources env fuel resource w)) = receiver w
  /\ receiver (snd (GetPeerResources env fuel resource w)) = receiver w.
Proof.
  intros Hindex.
  assert (forall c, keeps (fun w' => receiver w' = receiver w) (record c)) as Hrecord.
  { intros c w' Hw'. by rewrite record_keeps_receiver. }
  assert (forall v resource',
            keeps (fun w' => receiver w' = receiver w) (getRuleForResource v resource'))
    as Hlookup.
  { intros v resource' w' Hw'.
    rewrite (lookup_ignores_document v resource' w' index); [done|]. by rewrite Hw'. }
  split.
  - by apply (keeps_GetSubResources _ env Hrecord Hlookup fuel resource w).
  - by apply (keeps_GetPeerResources _ env Hrecord Hlookup fuel resource w).
Qed.

Lemma keeps_template_setRules t index :
  keeps (fun w => ruleTemplate (receiver w) = t) (setRules index).
Proof. by intros w. Qed.

Lemma keeps_template_lookup t v resource :
  keeps (fun w => ruleTemplate (receiver w) = t) (getRuleForResource v resource).
Proof.
  unfold getRuleForResource.
  apply keeps_bind.
  - apply keeps_bind; [apply keeps_getRules|]. intros [index|]; [apply keeps_ret|].
    apply keeps_bind; [apply keeps_template_setRules|]. intros _.
    destruct (negb _); [apply keeps_throw|].
    destruct (cue.List _) as [entries|e]; [|apply keeps_throw].
    apply keeps_forEach. intros _ entry. unfold indexRule.
    apply keeps_bind; [apply keeps_lift|]. intros re.
    apply keeps_bind; [apply keeps_getRules|]. intros m. apply keeps_template_setRules.
  - intros _. apply keeps_bind; [apply keeps_getRules|]. intros m.
    destruct (_ !! _); [apply keeps_ret | apply keeps_throw].
Qed.

(** X5: no public call changes the rule template of the receiver,
    whatever the receiver, the store and the outcome are. *)
Theorem template_is_never_changed env fuel resource w :
  ruleTemplate (receiver (snd (GetSubResources env fuel resource w)))
    = ruleTemplate (receiver w)
  /\ ruleTemplate (receiver (snd (GetPeerResources env fuel resource w)))
     = ruleTemplate (receiver w).
Proof.
  assert (forall c,
            keeps (fun w' => ruleTemplate (receiver w') = ruleTemplate (receiver w))
              (record c)) as Hrecord by (by intros c w').
  split.
  - by apply (keeps_GetSubResources _ env Hrecord
                (keeps_template_lookup (ruleTemplate (receiver w))) fuel resource w).
  - by apply (keeps_GetPeerResources _ env Hrecord
                (keeps_template_lookup (ruleTemplate (receiver w))) fuel resource w).
Qed.

(** ** Declarations that spell out names *)

Lemma namedChildren_evaluates env rec resource decl items w :
  namedChildren resource decl = Some items ->
  getResourcesWithSelector env rec decl resource w = (Ok items, w).
Proof.
  unfold namedChildren. intros Hnamed.
  destruct (cue.DecodeResource decl) as [base|] eqn:Hbase; [|done].
  destruct (cue.Fields (cue.LookupPath decl selectorKey))
    as [[|[label value] [|]]|] eqn:Hfields; try done.
  case_decide as Hlabel; [subst label|done].
  apply Fields_Success_Exists in Hfields.
  unfold getResourcesWithSelector.
  rewrite (bind_Ok _ _ w base w (lift_Success _ _ _ Hbase)).
  rewrite Hfields. simpl. unfold bind at 1; simpl.
  destruct value; simpl in Hnamed; try discriminate.
  - injection Hnamed as <-. reflexivity.
  - destruct (cue.decodeStrings items0) as [names|e] eqn:Hdec; [|discriminate].
    injection Hnamed as <-.
    unfold cue.isStringKind; simpl. unfold bind, lift.
    rewrite (DecodeStrings_list _ _ Hdec); simpl.
    by rewrite fold_left_snoc_map.
Qed.

Lemma found_rule_is_expanded env rec v resource w index rule decls :
  rules (receiver w) = Some index ->
  index !! ruleKey (k8s.Group resource) (k8s.Resource_ resource) = Some rule ->
  cue.List (cue.LookupPath rule subResourcesKey) = Success decls ->
  getSubResources_body env rec v resource w
  = forEach decls [] (fun subResources decl =>
      do items <- getResourcesWithSelector env rec decl resource;
      forEach items subResources (fun subResources item =>
        do children <- rec v item;
        ret (subResources ++ [mkSub item children]))) w.
Proof.
  intros Hindex Hrule Hsubs. unfold getSubResources_body.
  unfold bind at 1, attempt.
  rewrite (lookup_ignores_document v resource w index Hindex), Hrule.
  by rewrite (List_Success_Exists _ _ Hsubs), Hsubs.
Qed.

(** X6: a rule whose sub-resource declarations can be listed and whose
    first declaration names the resource itself is expanded without end:
    whatever the depth allowed, the expansion has not returned.  Nothing
    in the code bounds the recursion or remembers the identities already
    visited. *)
Theorem self_reference_never_returns env v resource w index rule decl decls others :
  rules (receiver w) = Some index ->
  index !! ruleKey (k8s.Group resource) (k8s.Resource_ resource) = Some rule ->
  cue.List (cue.LookupPath rule subResourcesKey) = Success (decl :: decls) ->
  namedChildren resource decl = Some (resource :: others) ->
  forall fuel, getSubResources env fuel v resource w = (Diverge, w).
Proof.
  intros Hindex Hrule Hsubs Hnamed fuel.
  induction fuel as [|fuel IH]; [done|].
  cbn [getSubResources].
  rewrite (found_rule_is_expanded env _ v resource w index rule (decl :: decls)
             Hindex Hrule Hsubs).
  cbn [forEach]. rewrite bind_assoc.
  rewrite (bind_Ok _ _ _ _ _
             (namedChildren_evaluates env _ resource decl _ w Hnamed)).
  cbn [forEach]. rewrite bind_assoc. rewrite bind_assoc.
  by rewrite (bind_Diverge _ _ _ _ IH).
Qed.

(** ** More on list queries *)

Section ListQueries.
Context (env : Env).

Lemma selectorPlan_known group kind key value relation w :
  listQueryKey key ->
  exists plan, selectorPlan (mkSelector group kind key value) relation w = (Ok plan, w).
Proof.
  intros [-> | [-> | [-> | ->]]]; unfold selectorPlan; simpl.
  - destruct (cue.String value); by eexists.
  - destruct (cue.DecodeStringMap value); by eexists.
  - destruct (cue.DecodeStringMap value); by eexists.
  - destruct (cue.Bool value); by eexists.
Qed.

(** X7: a selector key that [listResources] has no case for is rejected
    with "unknown selector" before anything is asked of the store. *)
Theorem unknown_key_is_rejected_unasked group kind key value relation w :
  ~ listQueryKey key ->
  listResources env (mkSelector group kind key value) relation w
  = (Err (UnsupportedSelector key), w).
Proof.
  intros Hunknown. unfold listQueryKey in Hunknown.
  unfold listResources, selectorPlan. simpl.
  repeat (case_decide; [tauto|]). reflexivity.
Qed.

(** X8: a [labels] value that does not decode, or an [ownerReference]
    value that is not a boolean, is not an error: the list request is sent
    without any option, and every item listed is returned. *)
Theorem misshapen_value_lists_unfiltered group kind key value relation w gvk items :
  misshapen key value ->
  GetGVKFromResource env (k8s.mk group kind "" "") = Success gvk ->
  ListUnstructured env gvk [] = Success items ->
  listResources env (mkSelector group kind key value) relation w
  = (Ok items,
     mkWorld (receiver w)
       (calls w ++ [CallGVK (k8s.mk group kind "" ""); CallList gvk []])).
Proof.
  intros Hshape Hgvk Hlist.
  assert (selectorPlan (mkSelector group kind key value) relation w
          = (Ok (mkPlan [] None false), w)) as Hplan.
  { destruct Hshape as [[-> [e He]] | [-> [e He]]]; unfold selectorPlan; simpl;
      by rewrite He. }
  by rewrite (listResources_plan env _ relation w _ gvk items Hplan Hgvk Hlist).
Qed.

(** X9: a [labels] selector sends one list request with the decoded
    labels as its only option, not scoped by namespace, and returns the
    items listed as they are. *)
Theorem labels_selector_passes_through group kind value labels relation w gvk items :
  cue.DecodeStringMap value = Success labels ->
  GetGVKFromResource env (k8s.mk group kind "" "") = Success gvk ->
  ListUnstructured env gvk [client.MatchingLabels labels] = Success items ->
  listResources env (mkSelector group kind labelsSelectorKey value) relation w
  = (Ok items,
     mkWorld (receiver w)
       (calls w ++ [CallGVK (k8s.mk group kind "" "");
                    CallList gvk [client.MatchingLabels labels]])).
Proof.
  intros Hlabels Hgvk Hlist.
  assert (selectorPlan (mkSelector group kind labelsSelectorKey value) relation w
          = (Ok (mkPlan [client.MatchingLabels labels] None false), w)) as Hplan.
  { unfold selectorPlan; simpl. by rewrite Hlabels. }
  by rewrite (listResources_plan env _ relation w _ gvk items Hplan Hgvk Hlist).
Qed.

(** X10: [ownerReference: false] lists in the relation resource's
    namespace and keeps every item, whatever its owner references. *)
Theorem ownerReference_false_keeps_all group kind relation w gvk items :
  GetGVKFromResource env (k8s.mk group kind "" "") = Success gvk ->
  ListUnstructured env gvk [client.InNamespace (k8s.Namespace relation)] = Success items ->
  listResources env (mkSelector group kind ownerReferenceSelectorKey (cue.Bool_ false))
    relation w
  = (Ok items,
     mkWorld (receiver w)
       (calls w ++ [CallGVK (k8s.mk group kind "" "");
                    CallList gvk [client.InNamespace (k8s.Namespace relation)]])).
Proof.
  intros Hgvk Hlist.
  by rewrite (listResources_plan env _ relation w _ gvk items
                (selectorPlan_ownerReference group kind false relation w) Hgvk Hlist).
Qed.

(** X11: when the group and kind of the selector cannot be resolved, the
    error is returned as it is and no list request is sent. *)
Theorem unresolved_kind_sends_no_list group kind key value relation w e :
  listQueryKey key ->
  GetGVKFromResource env (k8s.mk group kind "" "") = Failure e ->
  listResources env (mkSelector group kind key value) relation w
  = (Err e, mkWorld (receiver w) (calls w ++ [CallGVK (k8s.mk group kind "" "")])).
Proof.
  intros Hkey Hgvk.
  destruct (selectorPlan_known group kind key value relation w Hkey) as [plan Hplan].
  unfold listResources. rewrite (bind_Ok _ _ _ _ _ Hplan).
  unfold bind, record, lift; simpl. by rewrite Hgvk.
Qed.

(** X12: when the list request that is sent fails, the error is
    returned as it is, whatever the selector key: no filter runs and no
    item is returned.  The request is the one the key and its value call
    for; that the store would answer another request does not matter. *)
Theorem failed_list_is_returned group kind key value relation w plan gvk e :
  selectorPlan (mkSelector group kind key value) relation w = (Ok plan, w) ->
  GetGVKFromResource env (k8s.mk group kind "" "") = Success gvk ->
  ListUnstructured env gvk (listOpts plan) = Failure e ->
  listResources env (mkSelector group kind key value) relation w
  = (Err e,
     mkWorld (receiver w)
       (calls w ++ [CallGVK (k8s.mk group kind "" ""); CallList gvk (listOpts plan)])).
Proof.
  intros Hplan Hgvk Hlist.
  unfold listResources. rewrite (bind_Ok _ _ _ _ _ Hplan).
  unfold bind, record, lift; simpl. rewrite Hgvk; simpl. rewrite Hlist; simpl.
  by rewrite <- app_assoc.
Qed.
End ListQueries.

(** ** Trees, again *)

(** X13: [getGroupResourceFromSubs] returns the nodes of the tree that
    have the given group and kind, and only those, root first and
    children in order; a node is neither dropped nor repeated. *)
Theorem getGroupResourceFromSubs_selects_nodes group kind sub :
  getGroupResourceFromSubs sub group kind
  = filter (fun r => k8s.Group r = group /\ k8s.Resource_ r = kind) (nodes sub)
  /\ forall r,
       r ∈ getGroupResourceFromSubs sub group kind
       <-> r ∈ nodes sub /\ k8s.Group r = group /\ k8s.Resource_ r = kind.
Proof.
  split; [apply getGroupResourceFromSubs_filter|].
  intros r. rewrite getGroupResourceFromSubs_filter, list_elem_of_filter. tauto.
Qed.

(** ** Selectors with several keys *)

Section SeveralKeys.
Context (env : Env) (rec : cue.Value -> k8s.Resource -> M (list SubResource)).

Lemma declaration_runs_loop v resource w base fields :
  cue.DecodeResource v = Success base ->
  cue.Fields (cue.LookupPath v selectorKey) = Success fields ->
  getResourcesWithSelector env rec v resource w
  = selectorFields env rec v base resource fields [] w.
Proof.
  intros Hbase Hfields. apply Fields_Success_Exists in Hfields.
  unfold getResourcesWithSelector.
  rewrite (bind_Ok _ _ w base w (lift_Success _ _ _ Hbase)).
  rewrite Hfields. simpl. by unfold bind at 1.
Qed.

(** Without a [builtin] key the loop over the keys can be cut in two. *)
Lemma selectorFields_app v base resource pre post resources w :
  noBuiltin pre ->
  selectorFields env rec v base resource (pre ++ post) resources w
  = bind (selectorFields env rec v base resource pre resources)
      (fun resources' => selectorFields env rec v base resource post resources') w.
Proof.
  intros Hpre. revert resources w.
  induction Hpre as [|[label value] pre Hlabel _ IH]; intros resources w; [done|].
  simpl in Hlabel. cbn [app selectorFields].
  destruct (decide (label = builtinSelectorKey)); [done|].
  destruct (decide (label = nameSelectorKey)).
  - destruct (cue.isStringKind value);
      rewrite bind_assoc; apply bind_ext; intros; apply IH.
  - rewrite bind_assoc. apply bind_ext. intros. apply IH.
Qed.

(** Without a [builtin] key what was collected before the loop stays in
    front of what the loop collects. *)
Lemma selectorFields_acc v base resource fields resources w :
  noBuiltin fields ->
  selectorFields env rec v base resource fields resources w
  = bind (selectorFields env rec v base resource fields [])
      (fun found => ret (resources ++ found)) w.
Proof.
  intros Hfields. revert resources w.
  induction Hfields as [|[label value] fields Hlabel _ IH]; intros resources w.
  - simpl. unfold bind, ret. simpl. by rewrite app_nil_r.
  - simpl in Hlabel. cbn [selectorFields].
    destruct (decide (label = builtinSelectorKey)); [done|].
    assert (forall (found : list k8s.Resource) w',
              selectorFields env rec v base resource fields (resources ++ found) w'
              = bind (selectorFields env rec v base resource fields ([] ++ found))
                  (fun found' => ret (resources ++ found')) w') as Hstep.
    { intros found w'. rewrite (IH (resources ++ found)).
      rewrite (bind_ext_l _ _ _ w' (IH ([] ++ found))).
      rewrite bind_assoc. apply bind_ext. intros found' w''.
      unfold bind, ret. simpl. by rewrite app_assoc. }
    destruct (decide (label = nameSelectorKey)).
    + destruct (cue.isStringKind value); rewrite bind_assoc; apply bind_ext; intros a w'.
      * apply Hstep.
      * rewrite !fold_left_snoc_map. apply Hstep.
    + rewrite bind_assoc. apply bind_ext. intros items w'.
      rewrite !(fold_left_snoc_map
                  (fun item =>
                     k8s.mk (k8s.Group base) (k8s.Resource_ base)
                       (unstructured.GetName item) (unstructured.GetNamespace item))).
      apply Hstep.
Qed.

(** Without a [builtin] key the declaration itself plays no part in the
    loop. *)
Lemma selectorFields_declaration v v' base resource fields resources w :
  noBuiltin fields ->
  selectorFields env rec v base resource fields resources w
  = selectorFields env rec v' base resource fields resources w.
Proof.
  intros Hfields. revert resources w.
  induction Hfields as [|[label value] fields Hlabel _ IH]; intros resources w; [done|].
  simpl in Hlabel. cbn [selectorFields].
  destruct (decide (label = builtinSelectorKey)); [done|].
  destruct (decide (label = nameSelectorKey)).
  - destruct (cue.isStringKind value); apply bind_ext; intros; apply IH.
  - apply bind_ext. intros. apply IH.
Qed.

(** X14: the keys of a selector are evaluated one after the other, in
    the order of the document, and what they give is put end to end: a
    selector with the keys of two selectors, none of them [builtin], gives
    what the first gives followed by what the second gives in the world
    the first leaves.  Nothing is merged or removed. *)
Theorem keys_evaluate_in_order v v1 v2 base resource fields1 fields2 w w1 w2 found1 found2 :
  cue.DecodeResource v = Success base ->
  cue.DecodeResource v1 = Success base ->
  cue.DecodeResource v2 = Success base ->
  cue.Fields (cue.LookupPath v selectorKey) = Success (fields1 ++ fields2) ->
  cue.Fields (cue.LookupPath v1 selectorKey) = Success fields1 ->
  cue.Fields (cue.LookupPath v2 selectorKey) = Success fields2 ->
  noBuiltin fields1 ->
  noBuiltin fields2 ->
  getResourcesWithSelector env rec v1 resource w = (Ok found1, w1) ->
  getResourcesWithSelector env rec v2 resource w1 = (Ok found2, w2) ->
  getResourcesWithSelector env rec v resource w = (Ok (found1 ++ found2), w2).
Proof.
  intros Hbase Hbase1 Hbase2 Hfields Hfields1 Hfields2 Hno1 Hno2 Hrun1 Hrun2.
  rewrite (declaration_runs_loop v1 resource w base fields1 Hbase1 Hfields1) in Hrun1.
  rewrite (declaration_runs_loop v2 resource w1 base fields2 Hbase2 Hfields2) in Hrun2.
  rewrite (selectorFields_declaration v1 v base resource fields1 [] w Hno1) in Hrun1.
  rewrite (selectorFields_declaration v2 v base resource fields2 [] w1 Hno2) in Hrun2.
  rewrite (declaration_runs_loop v resource w base _ Hbase Hfields).
  rewrite (selectorFields_app v base resource fields1 fields2 [] w Hno1).
  rewrite (bind_Ok _ _ _ _ _ Hrun1).
  rewrite (selectorFields_acc v base resource fields2 found1 w1 Hno2).
  by rewrite (bind_Ok _ _ _ _ _ Hrun2).
Qed.

(** X15: a [builtin] key ends the evaluation of the selector.  The keys
    before it are evaluated, and their requests are sent, but what they
    gave is dropped; the keys after it are not looked at.  The result is
    that of the built-in rule alone. *)
Theorem builtin_key_takes_over v v1 base resource before tag typ after w w1 found1 :
  cue.DecodeResource v = Success base ->
  cue.DecodeResource v1 = Success base ->
  cue.Fields (cue.LookupPath v selectorKey)
    = Success (before ++ (builtinSelectorKey, tag) :: after) ->
  cue.Fields (cue.LookupPath v1 selectorKey) = Success before ->
  noBuiltin before ->
  cue.String tag = Success typ ->
  getResourcesWithSelector env rec v1 resource w = (Ok found1, w1) ->
  getResourcesWithSelector env rec v resource w
  = handleBuiltInRules env rec typ v resource w1.
Proof.
  intros Hbase Hbase1 Hfields Hfields1 Hno Htag Hrun1.
  rewrite (declaration_runs_loop v1 resource w base before Hbase1 Hfields1) in Hrun1.
  rewrite (selectorFields_declaration v1 v base resource before [] w Hno) in Hrun1.
  rewrite (declaration_runs_loop v resource w base _ Hbase Hfields).
  rewrite (selectorFields_app v base resource before _ [] w Hno).
  rewrite (bind_Ok _ _ _ _ _ Hrun1).
  cbn [selectorFields]. simpl.
  by rewrite (bind_Ok _ _ _ _ _ (lift_Success _ _ w1 Htag)).
Qed.
End SeveralKeys.

(** ** The public methods *)

Section PublicCalls.
Context (env : Env).

Lemma render_fails resource w e :
  GetUnstructuredFromResource env resource = Failure e
  \/ (exists un,
        GetUnstructuredFromResource env resource = Success un
        /\ CompileStringWithOptions env (ruleTemplate (receiver w)) un = Failure e) ->
  render env resource w = (Err e, mkWorld (receiver w) (calls w ++ [CallGet resource])).
Proof.
  intros [Hget|(un & Hget & Hcompile)];
    unfold render, bind, record, lift, getRuleTemplate; simpl; rewrite Hget; simpl;
    [done|by rewrite Hcompile].
Qed.

(** X16: when the live object cannot be fetched, or the template does
    not compile against it, both public methods return that error as it
    is; the receiver is untouched and the fetch is the only request
    sent. *)
Theorem failed_render_ends_call fuel resource w e :
  GetUnstructuredFromResource env resource = Failure e
  \/ (exists un,
        GetUnstructuredFromResource env resource = Success un
        /\ CompileStringWithOptions env (ruleTemplate (receiver w)) un = Failure e) ->
  GetSubResources env fuel resource w
  = (Err e, mkWorld (receiver w) (calls w ++ [CallGet resource]))
  /\ GetPeerResources env fuel resource w
     = (Err e, mkWorld (receiver w) (calls w ++ [CallGet resource])).
Proof.
  intros Hfail. unfold GetSubResources, GetPeerResources.
  by rewrite !(bind_Err _ _ _ _ _ (render_fails resource w e Hfail)).
Qed.

End PublicCalls.

(** ** Expansion of declarations that spell out names *)

Section NamedChildren.
Context (env : Env).

Lemma unruled_is_leaf fuel v resource w index :
  rules (receiver w) = Some index ->
  index !! ruleKey (k8s.Group resource) (k8s.Resource_ resource) = None ->
  getSubResources env (S fuel) v resource w = (Ok [], w).
Proof.
  intros Hindex Hnone. cbn [getSubResources].
  unfold getSubResources_body, bind at 1, attempt.
  by rewrite (lookup_ignores_document v resource w index Hindex), Hnone.
Qed.

Lemma leavesLoop fuel v w index items subResources :
  rules (receiver w) = Some index ->
  Forall (fun c => index !! ruleKey (k8s.Group c) (k8s.Resource_ c) = None) items ->
  forEach items subResources (fun subResources item =>
    do children <- getSubResources env (S fuel) v item;
    ret (subResources ++ [mkSub item children])) w
  = (Ok (subResources ++ ((fun c => mkSub c []) <$> items)), w).
Proof.
  intros Hindex Hleaves. revert subResources.
  induction Hleaves as [|item items Hitem _ IH]; intros subResources.
  - simpl. by rewrite app_nil_r.
  - cbn [forEach]. rewrite bind_assoc.
    rewrite (bind_Ok _ _ _ _ _ (unruled_is_leaf fuel v item w index Hindex Hitem)).
    unfold bind at 1, ret at 1. rewrite IH, fmap_cons. by rewrite <- app_assoc.
Qed.

Lemma namedDeclarationsLoop fuel v resource w index decls children subResources :
  rules (receiver w) = Some index ->
  Forall2 (fun decl items => namedChildren resource decl = Some items) decls children ->
  Forall (fun c => index !! ruleKey (k8s.Group c) (k8s.Resource_ c) = None)
    (concat children) ->
  forEach decls subResources (fun subResources decl =>
    do items <- getResourcesWithSelector env (getSubResources env (S fuel)) decl resource;
    forEach items subResources (fun subResources item =>
      do children <- getSubResources env (S fuel) v item;
      ret (subResources ++ [mkSub item children]))) w
  = (Ok (subResources ++ ((fun c => mkSub c []) <$> concat children)), w).
Proof.
  intros Hindex Hnamed. revert subResources.
  induction Hnamed as [|decl items decls children Hdecl _ IH]; intros subResources Hleaves.
  - simpl. by rewrite app_nil_r.
  - simpl in Hleaves. apply Forall_app in Hleaves as [Hitems Hrest].
    cbn [forEach]. rewrite bind_assoc.
    rewrite (bind_Ok _ _ _ _ _ (namedChildren_evaluates env _ resource decl items w Hdecl)).
    rewrite (bind_Ok _ _ _ _ _ (leavesLoop fuel v w index items subResources Hindex Hitems)).
    rewrite IH by done. simpl. by rewrite fmap_app, <- app_assoc.
Qed.

(** X18: when every declaration of the resource's rule spells out names
    and no rule exists for the kinds named, the expansion gives one leaf
    per name, declaration by declaration and name by name in the order of
    the document, repeated names included, and asks nothing of the
    store. *)
Theorem named_children_become_leaves fuel v resource w index rule decls children :
  rules (receiver w) = Some index ->
  index !! ruleKey (k8s.Group resource) (k8s.Resource_ resource) = Some rule ->
  cue.List (cue.LookupPath rule subResourcesKey) = Success decls ->
  Forall2 (fun decl items => namedChildren resource decl = Some items) decls children ->
  Forall (fun c => index !! ruleKey (k8s.Group c) (k8s.Resource_ c) = None)
    (concat children) ->
  getSubResources env (S (S fuel)) v resource w
  = (Ok ((fun c => mkSub c []) <$> concat children), w).
Proof.
  intros Hindex Hrule Hsubs Hnamed Hleaves.
  cbn [getSubResources].
  rewrite (found_rule_is_expanded env _ v resource w index rule decls Hindex Hrule Hsubs).
  exact (namedDeclarationsLoop fuel v resource w index decls children [] Hindex
           Hnamed Hleaves).
Qed.

Lemma namedPeersLoop fuel resource w decls children peerResources :
  Forall2 (fun decl items => namedChildren resource decl = Some items) decls children ->
  forEach decls peerResources (fun peerResources decl =>
    do items <- getResourcesWithSelector env (getSubResources env fuel) decl resource;
    ret (peerResources ++ items)) w
  = (Ok (peerResources ++ concat children), w).
Proof.
  intros Hnamed. revert peerResources.
  induction Hnamed as [|decl items decls children Hdecl _ IH]; intros peerResources.
  - simpl. by rewrite app_nil_r.
  - cbn [forEach]. rewrite bind_assoc.
    rewrite (bind_Ok _ _ _ _ _ (namedChildren_evaluates env _ resource decl items w Hdecl)).
    unfold bind at 1, ret at 1. rewrite IH. simpl. by rewrite <- app_assoc.
Qed.

(** X19: peer declarations are evaluated once each, in the order of the
    document, and their results are put end to end: for declarations that
    spell out names the peers are the names of the first declaration, then
    those of the second, and so on, with no identity removed and no
    expansion of any peer. *)
Theorem named_peers_are_concatenated fuel rule resource w decls children :
  cue.List (cue.LookupPath rule peerResourcesKey) = Success decls ->
  Forall2 (fun decl items => namedChildren resource decl = Some items) decls children ->
  getPeerResources env fuel rule resource w = (Ok (concat children), w).
Proof.
  intros Hpeers Hnamed. unfold getPeerResources.
  rewrite (List_Success_Exists _ _ Hpeers), Hpeers. simpl.
  exact (namedPeersLoop fuel resource w decls children [] Hnamed).
Qed.

(** X20: a [subResources] field that cannot be listed makes
    [getSubResources] fail with "subResources should be a list" when the
    field is there, and gives the empty result when it is absent; the
    same, each field for itself, for [peerResources] and
    [getPeerResources]. *)
Theorem fields_that_are_no_list fuel v resource w index rule :
  rules (receiver w) = Some index ->
  index !! ruleKey (k8s.Group resource) (k8s.Resource_ resource) = Some rule ->
  (forall e,
     cue.List (cue.LookupPath rule subResourcesKey) = Failure e ->
     getSubResources env (S fuel) v resource w
     = (if cue.Exists (cue.LookupPath rule subResourcesKey)
        then Err (Wrap e "subResources should be a list") else Ok [], w))
  /\ (forall e,
       cue.List (cue.LookupPath rule peerResourcesKey) = Failure e ->
       getPeerResources env fuel rule resource w
       = (if cue.Exists (cue.LookupPath rule peerResourcesKey)
          then Err (Wrap e "peerResources should be a list") else Ok [], w)).
Proof.
  intros Hindex Hrule. split; intros e Hlist.
  - cbn [getSubResources]. unfold getSubResources_body, bind at 1, attempt.
    rewrite (lookup_ignores_document v resource w index Hindex), Hrule.
    destruct (cue.Exists _); simpl; [by rewrite Hlist|done].
  - unfold getPeerResources.
    destruct (cue.Exists _); simpl; [by rewrite Hlist|done].
Qed.
End NamedChildren.

(** ** The further properties on the sample data *)

Lemma first_lookup_builds_index_witness :
  exists index,
    getRuleForResource Sample.document Sample.deployment Sample.zero
    = (Ok Cases.deploymentRule, withIndex Sample.zero index)
    /\ forall key,
         index !! key = ruleAmong [Cases.deploymentRule; Cases.replicaSetRule] key.
Proof.
  apply (first_lookup_builds_index Sample.document Sample.deployment Sample.zero
           [Cases.deploymentRule; Cases.replicaSetRule]).
  - reflexivity.
  - reflexivity.
  - repeat constructor; by eexists.
Defined.

Lemma failed_build_keeps_partial_index_witness :
  exists index,
    getRuleForResource Cases.halfBroken Sample.deployment Sample.zero
    = (Err (ValueError "cannot decode field group into string"),
       withIndex Sample.zero index)
    /\ (forall key, index !! key = ruleAmong [Cases.deploymentRule] key)
    /\ forall v' resource',
         getRuleForResource v' resource' (withIndex Sample.zero index)
         = (match ruleAmong [Cases.deploymentRule]
                    (ruleKey (k8s.Group resource') (k8s.Resource_ resource')) with
            | Some rule => Ok rule
            | None => Err (RuleNotFound (k8s.Group resource') (k8s.Resource_ resource'))
            end,
            withIndex Sample.zero index).
Proof.
  apply (failed_build_keeps_partial_index Cases.halfBroken Sample.deployment Sample.zero
           [Cases.deploymentRule] Cases.undecodable [Cases.replicaSetRule]).
  - reflexivity.
  - reflexivity.
  - repeat constructor; by eexists.
  - reflexivity.
Defined.

Lemma failed_build_leaves_empty_index_witness :
  getRuleForResource Sample.noRules Sample.deployment Sample.zero
  = (Err RulesNotFound, withIndex Sample.zero ∅)
  /\ forall v' resource',
       getRuleForResource v' resource' (withIndex Sample.zero ∅)
       = (Err (RuleNotFound (k8s.Group resource') (k8s.Resource_ resource')),
          withIndex Sample.zero ∅).
Proof.
  apply (failed_build_leaves_empty_index Sample.noRules Sample.deployment Sample.zero
           (RenderError "field not found: rules")); reflexivity.
Defined.

Lemma built_index_is_frozen_witness :
  receiver (snd (GetSubResources
                   (Sample.store Sample.document [Sample.replicaSet] Sample.slices) 3
                   Sample.deployment (Cases.holding Cases.namingRule)))
  = receiver (Cases.holding Cases.namingRule)
  /\ receiver (snd (GetPeerResources
                      (Sample.store Sample.document [Sample.replicaSet] Sample.slices) 3
                      Sample.deployment (Cases.holding Cases.namingRule)))
     = receiver (Cases.holding Cases.namingRule).
Proof.
  apply (built_index_is_frozen
           (Sample.store Sample.document [Sample.replicaSet] Sample.slices) 3
           Sample.deployment (Cases.holding Cases.namingRule)
           {["apps/Deployment" := Cases.namingRule]}).
  reflexivity.
Defined.

Lemma self_reference_never_returns_witness :
  getSubResources Cases.plain 1000 Sample.document Sample.deployment
    (Cases.holding Cases.selfRule)
  = (Diverge, Cases.holding Cases.selfRule).
Proof.
  apply (fun H1 H2 H3 H4 =>
           self_reference_never_returns Cases.plain Sample.document Sample.deployment
             (Cases.holding Cases.selfRule) {["apps/Deployment" := Cases.selfRule]}
             Cases.selfRule Cases.itself [] [] H1 H2 H3 H4 1000); reflexivity.
Defined.

Lemma unknown_key_is_rejected_unasked_witness :
  listResources Cases.plain (mkSelector "" "Pod" "fieldSelector" (cue.String_ "x"))
    Sample.deployment Sample.fresh
  = (Err (UnsupportedSelector "fieldSelector"), Sample.fresh).
Proof.
  apply (unknown_key_is_rejected_unasked Cases.plain "" "Pod" "fieldSelector"
           (cue.String_ "x") Sample.deployment Sample.fresh).
  unfold listQueryKey. intros [H|[H|[H|H]]]; discriminate H.
Defined.

Lemma misshapen_value_lists_unfiltered_witness :
  listResources Cases.plain
    (mkSelector "" "Pod" ownerReferenceSelectorKey (cue.String_ "true"))
    Sample.deployment Sample.fresh
  = (Ok [Sample.p1; Sample.p2],
     mkWorld (receiver Sample.fresh)
       (calls Sample.fresh
        ++ [CallGVK (k8s.mk "" "Pod" "" ""); CallList (schema.mkGVK "" "v1" "Pod") []])).
Proof.
  apply (misshapen_value_lists_unfiltered Cases.plain "" "Pod" ownerReferenceSelectorKey
           (cue.String_ "true") Sample.deployment Sample.fresh
           (schema.mkGVK "" "v1" "Pod") [Sample.p1; Sample.p2]).
  - right. split; [reflexivity|]. by eexists.
  - reflexivity.
  - reflexivity.
Defined.

Lemma labels_selector_passes_through_witness :
  listResources Cases.plain
    (mkSelector "" "Pod" labelsSelectorKey (cue.Struct [("app", cue.String_ "web")]))
    Sample.deployment Sample.fresh
  = (Ok [Sample.p1; Sample.p2],
     mkWorld (receiver Sample.fresh)
       (calls Sample.fresh
        ++ [CallGVK (k8s.mk "" "Pod" "" "");
            CallList (schema.mkGVK "" "v1" "Pod")
              [client.MatchingLabels {["app" := "web"]}]])).
Proof.
  apply (labels_selector_passes_through Cases.plain "" "Pod"
           (cue.Struct [("app", cue.String_ "web")]) {["app" := "web"]}
           Sample.deployment Sample.fresh (schema.mkGVK "" "v1" "Pod")
           [Sample.p1; Sample.p2]); reflexivity.
Defined.

Lemma ownerReference_false_keeps_all_witness :
  listResources Cases.plain
    (mkSelector "" "Pod" ownerReferenceSelectorKey (cue.Bool_ false))
    Sample.deployment Sample.fresh
  = (Ok [Sample.p1; Sample.p2],
     mkWorld (receiver Sample.fresh)
       (calls Sample.fresh
        ++ [CallGVK (k8s.mk "" "Pod" "" "");
            CallList (schema.mkGVK "" "v1" "Pod") [client.InNamespace "ns"]])).
Proof.
  apply (ownerReference_false_keeps_all Cases.plain "" "Pod" Sample.deployment Sample.fresh
           (schema.mkGVK "" "v1" "Pod") [Sample.p1; Sample.p2]); reflexivity.
Defined.

Lemma unresolved_kind_sends_no_list_witness :
  listResources Cases.unresolving
    (mkSelector "" "Gadget" labelsSelectorKey (cue.Struct []))
    Sample.deployment Sample.fresh
  = (Err (StoreError "no matches for kind"),
     mkWorld (receiver Sample.fresh)
       (calls Sample.fresh ++ [CallGVK (k8s.mk "" "Gadget" "" "")])).
Proof.
  apply (unresolved_kind_sends_no_list Cases.unresolving "" "Gadget" labelsSelectorKey
           (cue.Struct []) Sample.deployment Sample.fresh
           (StoreError "no matches for kind")).
  - right. by left.
  - reflexivity.
Defined.

Lemma failed_list_is_returned_witness :
  listResources Cases.forbidding
    (mkSelector "" "Pod" ownerReferenceSelectorKey (cue.Bool_ true))
    Sample.deployment Sample.fresh
  = (Err (StoreError "forbidden"),
     mkWorld (receiver Sample.fresh)
       (calls Sample.fresh
        ++ [CallGVK (k8s.mk "" "Pod" "" "");
            CallList (schema.mkGVK "" "v1" "Pod") [client.InNamespace "ns"]])).
Proof.
  apply (failed_list_is_returned Cases.forbidding "" "Pod" ownerReferenceSelectorKey
           (cue.Bool_ true) Sample.deployment Sample.fresh
           (mkPlan [client.InNamespace "ns"] None true)
           (schema.mkGVK "" "v1" "Pod") (StoreError "forbidden")); reflexivity.
Defined.

Lemma keys_evaluate_in_order_witness :
  getResourcesWithSelector Cases.plain (getSubResources Cases.plain 0) Cases.byBoth
    Sample.deployment Sample.fresh
  = (Ok ([k8s.mk "" "Pod" "p0" "ns"] ++ [k8s.mk "" "Pod" "p1" "ns"]),
     mkWorld (receiver Sample.fresh)
       (calls Sample.fresh
        ++ [CallGVK (k8s.mk "" "Pod" "" ""); CallList (schema.mkGVK "" "v1" "Pod") []])).
Proof.
  apply (keys_evaluate_in_order Cases.plain (getSubResources Cases.plain 0)
           Cases.byBoth Cases.byName Cases.byAnnotations (k8s.mk "" "Pod" "" "")
           Sample.deployment
           [("name", cue.String_ "p0")]
           [("annotations", cue.Struct [("team", cue.String_ "a")])]
           Sample.fresh Sample.fresh); try reflexivity.
  - repeat constructor; discriminate.
  - repeat constructor; discriminate.
Defined.

Lemma builtin_key_takes_over_witness :
  getResourcesWithSelector Cases.plain (getSubResources Cases.plain 0) Cases.withBuiltin
    Sample.deployment Sample.fresh
  = handleBuiltInRules Cases.plain (getSubResources Cases.plain 0) "Ingress"
      Cases.withBuiltin Sample.deployment Sample.fresh.
Proof.
  apply (builtin_key_takes_over Cases.plain (getSubResources Cases.plain 0)
           Cases.withBuiltin Cases.byName (k8s.mk "" "Pod" "" "") Sample.deployment
           [("name", cue.String_ "p0")] (cue.String_ "Ingress") "Ingress"
           [("labels", cue.Struct [("app", cue.String_ "web")])]
           Sample.fresh Sample.fresh [k8s.mk "" "Pod" "p0" "ns"]); try reflexivity.
  repeat constructor; discriminate.
Defined.

Lemma failed_render_ends_call_witness :
  GetSubResources Cases.unreachable 3 Sample.deployment Sample.zero
  = (Err (StoreError "not found"),
     mkWorld (receiver Sample.zero) (calls Sample.zero ++ [CallGet Sample.deployment]))
  /\ GetPeerResources Cases.unreachable 3 Sample.deployment Sample.zero
     = (Err (StoreError "not found"),
        mkWorld (receiver Sample.zero) (calls Sample.zero ++ [CallGet Sample.deployment])).
Proof.
  apply (failed_render_ends_call Cases.unreachable 3 Sample.deployment Sample.zero
           (StoreError "not found")).
  left. reflexivity.
Defined.


Lemma named_children_become_leaves_witness :
  getSubResources Cases.plain 2 Sample.document Sample.deployment
    (Cases.holding Cases.namingRule)
  = (Ok [mkSub (k8s.mk "" "Service" "a" "ns") [];
         mkSub (k8s.mk "" "Service" "b" "ns") [];
         mkSub (k8s.mk "" "ConfigMap" "c" "ns") []],
     Cases.holding Cases.namingRule).
Proof.
  apply (named_children_become_leaves Cases.plain 0 Sample.document Sample.deployment
           (Cases.holding Cases.namingRule) {["apps/Deployment" := Cases.namingRule]}
           Cases.namingRule [Cases.services; Cases.configMap]
           [[k8s.mk "" "Service" "a" "ns"; k8s.mk "" "Service" "b" "ns"];
            [k8s.mk "" "ConfigMap" "c" "ns"]]).
  - reflexivity.
  - reflexivity.
  - reflexivity.
  - repeat constructor.
  - repeat constructor.
Defined.

Lemma named_peers_are_concatenated_witness :
  getPeerResources Cases.plain 0 Cases.namingRule Sample.deployment Sample.fresh
  = (Ok [k8s.mk "" "Service" "a" "ns"; k8s.mk "" "Service" "b" "ns";
         k8s.mk "" "ConfigMap" "c" "ns"],
     Sample.fresh).
Proof.
  apply (named_peers_are_concatenated Cases.plain 0 Cases.namingRule Sample.deployment
           Sample.fresh [Cases.services; Cases.configMap]
           [[k8s.mk "" "Service" "a" "ns"; k8s.mk "" "Service" "b" "ns"];
            [k8s.mk "" "ConfigMap" "c" "ns"]]).
  - reflexivity.
  - repeat constructor.
Defined.

Lemma fields_that_are_no_list_witness :
  getSubResources Cases.plain 1 Sample.document Sample.deployment
    (Cases.holding Cases.crookedRule)
  = (Err (Wrap (ValueError "cannot use value as list") "subResources should be a list"),
     Cases.holding Cases.crookedRule)
  /\ getPeerResources Cases.plain 0 Cases.crookedRule Sample.deployment
       (Cases.holding Cases.crookedRule)
     = (Ok [], Cases.holding Cases.crookedRule).
Proof.
  destruct (fields_that_are_no_list Cases.plain 0 Sample.document Sample.deployment
              (Cases.holding Cases.crookedRule) {["apps/Deployment" := Cases.crookedRule]}
              Cases.crookedRule eq_refl eq_refl) as [Hsubs Hpeers].
  split.
  - exact (Hsubs (ValueError "cannot use value as list") eq_refl).
  - exact (Hpeers (RenderError "field not found: peerResources") eq_refl).
Defined.
